(** * MONCoind RPC client: a shallow embedding of [lib/moncoind-rpc.js]

    The client is a JavaScript class whose methods validate their arguments,
    send one HTTP request through [request-promise-native] and reshape the
    parsed JSON reply.  The embedding keeps that structure:

    - JavaScript values are the inductive [JsVal]; objects are association
      lists in insertion order, arrays are lists, numbers are the integers,
      [NaN] and the two infinities, and strings are their UTF-8 bytes;
    - a [.then] callback is a function into [Completion], the error monad of
      normal and abrupt (thrown) completions;
    - a method is a state transformer over a [World]: the heap of the mutable
      objects the caller can reach (the client instance [this] and the
      [opts] objects it is handed) and the log of the requests handed to
      the HTTP library so far.  An [opts] argument is an optional address in
      that heap, so that what a method writes into it is seen by the caller;
      every other argument, and every reply, is a value;
    - the daemon, and the pieces of the Node.js runtime that are not part of
      the repository, are the fields of a [Platform]. *)

From Stdlib Require Import ZArith String Ascii List Bool Lia.
From stdpp Require Import base option list gmap strings pretty.

(** ** JavaScript values *)

(** Numbers are the integers, [NaN] and the two infinities; the client never
    computes with fractions, which are left out.  An integer stands for
    the JavaScript number of that value, which exists when a double
    represents it (every integer up to 2^53 in magnitude).

    An object is a plain one: its prototype is [Object.prototype] and its
    own properties are data properties holding values, so that no property
    of it is a function. *)
Unset Elimination Schemes.
Inductive JsVal : Type :=
| VUndefined
| VNull
| VBool (b : bool)
| VNumber (n : Z)
| VString (s : string)
| VArray (elems : list JsVal)
| VObject (props : list (string * JsVal))
| VNaN
| VInfinity (negative : bool).
Set Elimination Schemes.

(** An object is the list of its own properties, in insertion order. *)
Abbreviation Obj := (list (string * JsVal)).

(** [o.hasOwnProperty(k)] and the value stored under [k]. *)
Fixpoint own (k : string) (o : Obj) : option JsVal :=
  match o with
  | [] => None
  | (k', v) :: o' => if String.eqb k' k then Some v else own k o'
  end.

(** [o[k]] for an object: a missing property reads as [undefined]. *)
Definition field (k : string) (o : Obj) : JsVal := default VUndefined (own k o).

(** [o[k] = v]: an existing property keeps its place, a new one is added
    last. *)
Fixpoint assign (k : string) (v : JsVal) (o : Obj) : Obj :=
  match o with
  | [] => [(k, v)]
  | (k', v') :: o' =>
      if String.eqb k' k then (k', v) :: o' else (k', v') :: assign k v o'
  end.

(** [delete o[k]]. *)
Fixpoint remove (k : string) (o : Obj) : Obj :=
  match o with
  | [] => []
  | (k', v') :: o' =>
      if String.eqb k' k then remove k o' else (k', v') :: remove k o'
  end.

(** The names of the own properties, in order. *)
Definition keys (o : Obj) : list string := map fst o.

(** ToBoolean. *)
Definition truthy (v : JsVal) : bool :=
  match v with
  | VUndefined | VNull => false
  | VBool b => b
  | VNumber n => negb (n =? 0)%Z
  | VString s => negb (String.eqb s "")
  | VArray _ | VObject _ => true
  | VNaN => false
  | VInfinity _ => true
  end.

Definition isUndefined (v : JsVal) : bool :=
  match v with VUndefined => true | _ => false end.

(** [Array.isArray]. *)
Definition isArray (v : JsVal) : bool :=
  match v with VArray _ => true | _ => false end.

(** [a || b]. *)
Definition or_else (a b : JsVal) : JsVal := if truthy a then a else b.

(** ** Errors and completions *)

Inductive Failure : Type :=
| Error (message : JsVal)      (* [new Error(message)] *)
| TypeError                    (* a TypeError raised by the runtime *)
| TransportError (e : string). (* the rejection of the HTTP library *)

Inductive Completion (A : Type) : Type :=
| Normal (a : A)
| Abrupt (e : Failure).
Arguments Normal {A} a.
Arguments Abrupt {A} e.

#[global] Instance Completion_ret : MRet Completion := fun _ a => Normal a.
#[global] Instance Completion_bind : MBind Completion := fun _ _ f c =>
  match c with
  | Normal a => f a
  | Abrupt e => Abrupt e
  end.

(** [v[k]] for a key that no prototype defines (none of the keys the client
    reads is a built-in property of objects, strings, numbers, booleans or
    arrays): reading a property of [undefined] or [null] is a TypeError,
    primitives and arrays have no such property. *)
Definition getProp (v : JsVal) (k : string) : Completion JsVal :=
  match v with
  | VUndefined | VNull => Abrupt TypeError
  | VObject o => Normal (field k o)
  | _ => Normal VUndefined
  end.

(** [v[k] = x] in strict mode, for a receiver that is a parsed JSON value. *)
Definition setProp (v : JsVal) (k : string) (x : JsVal) : Completion JsVal :=
  match v with
  | VObject o => Normal (VObject (assign k x o))
  | _ => Abrupt TypeError
  end.

(** ** Strings *)

Definition lower_ascii (c : ascii) : ascii :=
  let n := nat_of_ascii c in
  if (65 <=? n)%nat && (n <=? 90)%nat then ascii_of_nat (n + 32) else c.

(** [String.prototype.toLowerCase] on a UTF-8 encoded string: the ASCII
    capitals, and U+212A KELVIN SIGN (bytes E2 84 AA), whose lower case is
    [k].  No other character has [o] or [k] as its lower case, so the
    comparison of the result with ["ok"] is the one JavaScript makes. *)
Fixpoint toLowerCase (s : string) : string :=
  match s with
  | EmptyString => EmptyString
  | String "226" (String "132" (String "170" s')) => String "k" (toLowerCase s')
  | String c s' => String (lower_ascii c) (toLowerCase s')
  end.

(** [v.toLowerCase()]: only strings have the method. *)
Definition callToLowerCase (v : JsVal) : Completion string :=
  match v with
  | VString s => Normal (toLowerCase s)
  | _ => Abrupt TypeError
  end.

(** ** Numbers *)

(** The result of a conversion to a number. *)
Inductive Num : Type :=
| NaN
| Integer (n : Z)
| Infinity (negative : bool).

Definition VNum (x : Num) : JsVal :=
  match x with
  | NaN => VNaN
  | Integer n => VNumber n
  | Infinity negative => VInfinity negative
  end.

(** [Math.abs]. *)
Definition abs (x : Num) : Num :=
  match x with
  | NaN => NaN
  | Integer n => Integer (Z.abs n)
  | Infinity _ => Infinity false
  end.

(** The double nearest to an integer, ties going to the even significand:
    an integer up to 2^53 in magnitude is a double, a larger one keeps its
    53 leading bits, and what rounds to 2^1024 or more is an infinity. *)
Definition roundToDouble (n : Z) : Num :=
  let m := Z.abs n in
  if (m <=? 2 ^ 53)%Z then Integer n
  else
    let k := (Z.log2 m - 52)%Z in
    let q := (m / 2 ^ k)%Z in
    let r := (m mod 2 ^ k)%Z in
    let half := (2 ^ (k - 1))%Z in
    let q' := if (r <? half)%Z then q
              else if (half <? r)%Z then (q + 1)%Z
              else if Z.even q then q else (q + 1)%Z in
    let m' := (q' * 2 ^ k)%Z in
    if (2 ^ 1024 <=? m')%Z then Infinity (n <? 0)%Z
    else Integer (Z.sgn n * m')%Z.

(** *** parseInt *)

(** The white space and line terminators of one byte: TAB, LF, VT, FF, CR
    and SP. *)
Definition isWhiteSpace (c : ascii) : bool :=
  match nat_of_ascii c with
  | 9 | 10 | 11 | 12 | 13 | 32 => true
  | _ => false
  end%nat.

(** The third byte of the white space of the block U+2000: U+2000 to U+200A,
    the separators U+2028 and U+2029, and U+202F. *)
Definition isSpace2000 (c : ascii) : bool :=
  let n := nat_of_ascii c in
  ((128 <=? n) && (n <=? 138) || (n =? 168) || (n =? 169) || (n =? 175))%nat.

(** What [parseInt] skips: the white space and the line terminators of
    JavaScript, in UTF-8.  Besides the six of one byte these are U+00A0,
    U+1680, those of the block U+2000, U+205F, U+3000 and U+FEFF. *)
Fixpoint trimStart (s : string) : string :=
  match s with
  | String "194" (String "160" r) => trimStart r
  | String "225" (String "154" (String "128" r)) => trimStart r
  | String "226" (String "128" (String c r)) =>
      if isSpace2000 c then trimStart r else s
  | String "226" (String "129" (String "159" r)) => trimStart r
  | String "227" (String "128" (String "128" r)) => trimStart r
  | String "239" (String "187" (String "191" r)) => trimStart r
  | String c r => if isWhiteSpace c then trimStart r else s
  | EmptyString => s
  end.

Definition digitValue (c : ascii) : option Z :=
  let n := Z.of_nat (nat_of_ascii c) in
  if (48 <=? n)%Z && (n <=? 57)%Z then Some (n - 48)%Z
  else if (97 <=? n)%Z && (n <=? 122)%Z then Some (n - 87)%Z
  else if (65 <=? n)%Z && (n <=? 90)%Z then Some (n - 55)%Z
  else None.

(** The longest prefix of digits of the radix, as a number; [None] when it
    is empty. *)
Fixpoint parseDigits (radix : Z) (s : string) (acc : option Z) : option Z :=
  match s with
  | String c s' =>
      match digitValue c with
      | Some d =>
          if (d <? radix)%Z
          then parseDigits radix s' (Some (default 0 acc * radix + d)%Z)
          else acc
      | None => acc
      end
  | EmptyString => acc
  end.

(** [parseInt(s)] for a string and no radix: leading white space is skipped,
    a sign and a [0x] prefix are honoured, the digits that follow are read,
    and the result is the double nearest to what they spell. *)
Definition parseIntOfString (s : string) : Num :=
  let s1 := trimStart s in
  let '(sign, s2) := match s1 with
                     | String "-" r => ((-1)%Z, r)
                     | String "+" r => (1%Z, r)
                     | _ => (1%Z, s1)
                     end in
  let '(radix, s3) := match s2 with
                      | String "0" (String "x" r) => (16%Z, r)
                      | String "0" (String "X" r) => (16%Z, r)
                      | _ => (10%Z, s2)
                      end in
  match parseDigits radix s3 None with
  | Some m => roundToDouble (sign * m)
  | None => NaN
  end.

(** *** Buffers *)

Definition hexDigit (n : Z) : ascii :=
  if (n <? 10)%Z then ascii_of_nat (Z.to_nat (48 + n))
  else ascii_of_nat (Z.to_nat (87 + n)).

Definition byteToHex (b : Z) : string :=
  String (hexDigit (b / 16)) (String (hexDigit (b mod 16)) EmptyString).

(** [buf.toString('hex')]. *)
Definition toString_hex (buf : list Z) : string :=
  foldr (fun b acc => byteToHex b +:+ acc) "" buf.

(** The bytes of a string ([Buffer.from(str)], UTF-8). *)
Fixpoint bytesOfString (s : string) : list Z :=
  match s with
  | EmptyString => []
  | String c s' => Z.of_nat (nat_of_ascii c) :: bytesOfString s'
  end.

(** ** The world a method runs in *)

(** Addresses of the mutable objects shared with the caller. *)
Abbreviation loc := positive.

Inductive Verb : Type := GET | POST.

(** The options object handed to [request(...)].  [uri] keeps the four
    arguments of the format string ['%s://%s:%s/%s']. *)
Record Request : Type := {
  uri : string * JsVal * JsVal * string;
  method : Verb;
  body : option JsVal;
  json : bool;
  timeout : JsVal;
  forever : JsVal;
  headers : list (string * JsVal)
}.

(** What the HTTP library does with the options it is handed: it refuses
    them by throwing at once (an address it cannot parse, for one), or it
    returns a promise, which it rejects or resolves with the parsed reply. *)
Inductive Reply : Type :=
| Raised (e : Failure)
| NetworkError (e : string)
| Parsed (response : JsVal).

(** What the repository takes from outside: the HTTP library with the
    daemon behind it, the name and version of [package.json], and three
    conversions of the runtime that the model leaves open — ToNumber on
    strings, ToString on the integers beyond 2^53, which JavaScript prints
    from the shortest digits that identify the double, and [Buffer.from] on
    an object that is not an array. *)
Record Platform : Type := {
  daemon : Request -> Reply;
  packageInfo : string * string;
  StringToNumber : string -> Num;
  NumberToString : Z -> string;
  Buffer_from_object : Obj -> Completion (list Z)
}.

Record World : Type := {
  heap : gmap loc Obj;
  sent : list Request
}.

(** A call either throws before it returns, or returns a promise that is
    rejected or resolved. *)
Inductive Outcome : Type :=
| Throws (e : Failure)
| Rejects (e : Failure)
| Resolves (v : JsVal).

Definition Method : Type := World -> Outcome * World.

(** [l[k]] and [l[k] = v] for an object of the heap. *)
Definition load (l : loc) (k : string) (w : World) : JsVal :=
  field k (default [] (heap w !! l)).

Definition store (l : loc) (k : string) (v : JsVal) (w : World) : World :=
  {| heap := <[l := assign k v (default [] (heap w !! l))]> (heap w);
     sent := sent w |}.

(** [{}]: a new object at an unused address. *)
Definition newObject (w : World) : loc * World :=
  let l := fresh (dom (heap w)) in
  (l, {| heap := <[l := []]> (heap w); sent := sent w |}).

(** [opts = opts || {}] for an optional object argument. *)
Definition orNewObject (opts : option loc) (w : World) : loc * World :=
  match opts with
  | Some l => (l, w)
  | None => newObject w
  end.

(** [throw new Error(message)] in the body of a method. *)
Definition throw (message : string) : Method :=
  fun w => (Throws (Error (VString message)), w).

(** [promise.then(f)]: a callback that throws rejects the promise. *)
Definition then_ (p : Method) (f : JsVal -> Completion JsVal) : Method :=
  fun w =>
    match p w with
    | (Resolves v, w') =>
        (match f v with
         | Normal r => Resolves r
         | Abrupt e => Rejects e
         end, w')
    | other => other
    end.

(** [xs.forEach(x => ...)] where the callback grows the array [tmp]. *)
Fixpoint each (f : JsVal -> list JsVal -> Completion (list JsVal))
    (xs tmp : list JsVal) : Completion (list JsVal) :=
  match xs with
  | [] => Normal tmp
  | x :: xs' => tmp' ← f x tmp; each f xs' tmp'
  end.

(** Only arrays have [forEach] among parsed JSON values. *)
Definition forEach (v : JsVal)
    (f : JsVal -> list JsVal -> Completion (list JsVal))
    (tmp : list JsVal) : Completion (list JsVal) :=
  match v with
  | VArray xs => each f xs tmp
  | _ => Abrupt TypeError
  end.

(** The arguments of a call.  Plain arguments are values.  An [opts]
    argument is left out ([None]: [undefined], or any other falsy value,
    which [opts || {}] replaces alike) or is the address of an object of the
    caller that can be written.  A truthy argument that cannot be written
    (a number, a string, a frozen object), on which the assignment of a
    default throws a TypeError in strict mode, is outside the model. *)
Inductive Call : Type :=
| Call_block (hash : JsVal)
| Call_blockCount
| Call_blockHeaderByHash (hash : JsVal)
| Call_blockHeaderByHeight (height : JsVal)
| Call_blockShortHeaders (height : JsVal)
| Call_blocksDetailed (opts : option loc)
| Call_blocksLite (opts : option loc)
| Call_blockTemplate (walletAddress reserveSize : JsVal)
| Call_fee
| Call_globalIndexes (transactionHash : JsVal)
| Call_globalIndexesForRange (startHeight endHeight : JsVal)
| Call_height
| Call_info
| Call_lastBlockHeader
| Call_peers
| Call_poolChanges (tailBlockHash knownTransactionHashes : JsVal)
| Call_randomOutputs (amounts mixin : JsVal)
| Call_rawBlocks (blockHashes blockCount : JsVal)
| Call_sendRawTransaction (transaction : JsVal)
| Call_submitBlock (blockBlob : JsVal)
| Call_transaction (hash : JsVal)
| Call_transactionPool
| Call_transactionsStatus (transactionHashes : JsVal)
| Call_walletSyncData (opts : option loc).

(** ** The class *)

Section MONCoind.

Context (env : Platform).

(** ToString.  An object is converted by the [toString] it inherits unless
    it has a [toString] of its own: that one is not a function, and neither
    it nor [valueOf] (which returns the object) yields a primitive, so the
    conversion throws a TypeError.  An array joins the strings of its
    elements. *)
Fixpoint jsToString (v : JsVal) : Completion string :=
  match v with
  | VUndefined => Normal "undefined"
  | VNull => Normal "null"
  | VBool true => Normal "true"
  | VBool false => Normal "false"
  | VNumber n =>
      Normal (if (Z.abs n <=? 2 ^ 53)%Z then pretty n else NumberToString env n)
  | VNaN => Normal "NaN"
  | VInfinity false => Normal "Infinity"
  | VInfinity true => Normal "-Infinity"
  | VString s => Normal s
  | VArray xs =>
      (fix join (xs : list JsVal) : Completion string :=
         match xs with
         | [] => Normal ""
         | x :: rest =>
             match match x with
                   | VUndefined | VNull => Normal ""
                   | _ => jsToString x
                   end with
             | Abrupt e => Abrupt e
             | Normal sx =>
                 match rest with
                 | [] => Normal sx
                 | _ =>
                     match join rest with
                     | Abrupt e => Abrupt e
                     | Normal sr => Normal (sx +:+ "," +:+ sr)
                     end
                 end
             end
         end) xs
  | VObject o =>
      match own "toString" o with
      | Some _ => Abrupt TypeError
      | None => Normal "[object Object]"
      end
  end.

(** [parseInt(v)] with no radix. *)
Definition parseInt (v : JsVal) : Completion Num :=
  s ← jsToString v; Normal (parseIntOfString s).

(** ToNumber.  An object without a [toString] of its own is converted from
    ["[object Object]"], which is no number. *)
Definition toNumber (v : JsVal) : Completion Num :=
  match v with
  | VUndefined => Normal NaN
  | VNull => Normal (Integer 0)
  | VBool b => Normal (Integer (if b then 1 else 0))
  | VNumber n => Normal (Integer n)
  | VNaN => Normal NaN
  | VInfinity negative => Normal (Infinity negative)
  | VString s => Normal (StringToNumber env s)
  | VArray _ => s ← jsToString v; Normal (StringToNumber env s)
  | VObject o =>
      match own "toString" o with
      | Some _ => Abrupt TypeError
      | None => Normal NaN
      end
  end.

(** The byte an element of an array becomes in a buffer. *)
Definition toByte (x : Num) : Z :=
  match x with
  | Integer n => (n mod 256)%Z
  | _ => 0%Z
  end.

Fixpoint toBytes (xs : list JsVal) : Completion (list Z) :=
  match xs with
  | [] => Normal []
  | x :: rest => n ← toNumber x; buf ← toBytes rest; Normal (toByte n :: buf)
  end.

(** [Buffer.from(v)]: the bytes of a string, the elements of an array
    converted to bytes; a number, a boolean, [null] and [undefined] are
    refused. *)
Definition Buffer_from (v : JsVal) : Completion (list Z) :=
  match v with
  | VString s => Normal (bytesOfString s)
  | VArray xs => toBytes xs
  | VObject o => Buffer_from_object env o
  | _ => Abrupt TypeError
  end.

(** [new MONCoind(opts)]. *)
Definition constructor (opts : JsVal) (w : World) : loc * World :=
  let opts := match or_else opts (VObject []) with
              | VObject o => o
              | _ => []
              end in
  let '(this, w) := newObject w in
  let w := store this "host" (or_else (field "host" opts) (VString "127.0.0.1")) w in
  let w := store this "port" (or_else (field "port" opts) (VNumber 12898)) w in
  let w := store this "timeout" (or_else (field "timeout" opts) (VNumber 2000)) w in
  let w := store this "ssl" (or_else (field "ssl" opts) (VBool false)) w in
  let w := store this "userAgent"
             (or_else (field "userAgent" opts)
                (VString (fst (packageInfo env) +:+ "/" +:+ snd (packageInfo env)))) w in
  let w := store this "keepAlive"
             (if negb (isUndefined (field "keepAlive" opts))
              then field "keepAlive" opts else VBool true) w in
  (this, w).

Context (this : loc).

(** The options both [_get] and [_rawPost] pass to [request]. *)
Definition options (verb : Verb) (path : string) (payload : option JsVal)
    (w : World) : Request :=
  {| uri := (if truthy (load this "ssl" w) then "https" else "http",
             load this "host" w, load this "port" w, path);
     method := verb;
     body := payload;
     json := true;
     timeout := load this "timeout" w;
     forever := load this "keepAlive" w;
     headers := [("User-Agent", load this "userAgent" w)] |}.

(** [request(r)]: the options are handed to the HTTP library, which throws
    or returns its promise. *)
Definition request (r : Request) : Method :=
  fun w =>
    (match daemon env r with
     | Raised e => Throws e
     | NetworkError e => Rejects (TransportError e)
     | Parsed response => Resolves response
     end,
     {| heap := heap w; sent := sent w ++ [r] |}).

Definition _get (method : string) : Method :=
  fun w =>
    if String.eqb method "" then throw "no method supplied" w
    else request (options GET method None w) w.

(** [throw new new Error('...')()] constructs from an Error instance, which
    is not a constructor: what is thrown is a TypeError. *)
Definition _rawPost (endpoint : string) (body : JsVal) : Method :=
  fun w =>
    if String.eqb endpoint "" then (Throws TypeError, w)
    else if isUndefined body then (Throws TypeError, w)
    else request (options POST endpoint (Some body) w) w.

(** The callback of [_post] on the JSON-RPC envelope. *)
Definition _post_then (response : JsVal) : Completion JsVal :=
  error ← getProp response "error";
  if truthy error
  then message ← getProp error "message"; Abrupt (Error message)
  else getProp response "result".

Definition _post (method : string) (params : JsVal) : Method :=
  fun w =>
    if String.eqb method "" then throw "no method supplied" w
    else
      let params := or_else params (VObject []) in
      let body := VObject [("jsonrpc", VString "2.0");
                           ("method", VString method);
                           ("params", params)] in
      then_ (_rawPost "json_rpc" body) _post_then w.

Definition block (hash : JsVal) : Method :=
  fun w =>
    if negb (truthy hash) then throw "must specify hash" w
    else then_ (_post "f_block_json" (VObject [("hash", hash)]))
           (fun response => getProp response "block") w.

Definition blockCount : Method :=
  then_ (_post "getblockcount" VUndefined)
    (fun response => getProp response "count").

Definition blockHeaderByHash (hash : JsVal) : Method :=
  fun w =>
    if negb (truthy hash) then throw "must specify hash" w
    else then_ (_post "getblockheaderbyhash" (VObject [("hash", hash)]))
           (fun response => getProp response "block_head") w.

Definition blockHeaderByHeight (height : JsVal) : Method :=
  fun w =>
    if isUndefined height then throw "must specify height" w
    else then_ (_post "getblockheaderbyheight" (VObject [("height", height)]))
           (fun response => getProp response "block_header") w.

Definition blockShortHeaders (height : JsVal) : Method :=
  fun w =>
    if isUndefined height then throw "must specify height" w
    else then_ (_post "f_blocks_list_json" (VObject [("height", height)]))
           (fun response => getProp response "blocks") w.

Definition blocksDetailed (opts : option loc) : Method :=
  fun w =>
    let '(opts, w) := orNewObject opts w in
    if negb (isArray (load opts "blockHashes" w))
    then throw "must supply an array of block hashes" w
    else
      let w := if isUndefined (load opts "timestamp" w)
               then store opts "timestamp" (VNumber 0) w else w in
      let w := if isUndefined (load opts "blockCount" w)
               then store opts "blockCount" (VNumber 100) w else w in
      let body := VObject [("blockIds", load opts "blockHashes" w);
                           ("timestamp", load opts "timestamp" w);
                           ("blockCount", load opts "blockCount" w)] in
      _rawPost "queryblocksdetailed" body w.

(** The inner loop of [blocksLite] and the loop of [poolChanges]: one
    [{hash, prefix}] record is pushed per entry. *)
Definition pushTransaction (txn : JsVal) (tmp : list JsVal)
    : Completion (list JsVal) :=
  hash ← getProp txn "transactionPrefixInfo.txHash";
  prefix ← getProp txn "transactionPrefixInfo.txPrefix";
  Normal (tmp ++ [VObject [("hash", hash); ("prefix", prefix)]]).

(** The outer loop of [blocksLite]. *)
Definition pushBlock (item : JsVal) (tmp : list JsVal)
    : Completion (list JsVal) :=
  txPrefixes ← getProp item "blockShortInfo.txPrefixes";
  transactions ← forEach txPrefixes pushTransaction [];
  raw ← getProp item "blockShortInfo.block";
  buf ← Buffer_from raw;
  hash ← getProp item "blockShortInfo.blockId";
  Normal (tmp ++ [VObject [("block", VString (toString_hex buf));
                           ("hash", hash);
                           ("transactions", VArray transactions)]]).

Definition blocksLite_then (response : JsVal) : Completion JsVal :=
  items ← getProp response "items";
  tmp ← forEach items pushBlock [];
  setProp response "items" (VArray tmp).

Definition blocksLite (opts : option loc) : Method :=
  fun w =>
    let '(opts, w) := orNewObject opts w in
    if negb (isArray (load opts "blockHashes" w))
    then throw "must supply an array of block hashes" w
    else
      let w := if isUndefined (load opts "timestamp" w)
               then store opts "timestamp" (VNumber 0) w else w in
      let body := VObject [("blockIds", load opts "blockHashes" w);
                           ("timestamp", load opts "timestamp" w)] in
      then_ (_rawPost "queryblockslite" body) blocksLite_then w.

Definition blockTemplate (walletAddress reserveSize : JsVal) : Method :=
  fun w =>
    if isUndefined reserveSize then throw "must specify reserveSize" w
    else if negb (truthy walletAddress) then throw "must specify walletAddress" w
    else _post "getblocktemplate"
           (VObject [("reserve_size", reserveSize);
                     ("wallet_address", walletAddress)]) w.

Definition fee : Method := _get "fee".

Definition globalIndexes_then (response : JsVal) : Completion JsVal :=
  status ← getProp response "status";
  lowered ← callToLowerCase status;
  if negb (String.eqb lowered "ok")
  then Abrupt (Error (VString "Transaction not found"))
  else getProp response "o_indexes".

Definition globalIndexes (transactionHash : JsVal) : Method :=
  fun w =>
    if isUndefined transactionHash then throw "must supply a transaction hash" w
    else then_ (_rawPost "get_o_indexes" (VObject [("txid", transactionHash)]))
           globalIndexes_then w.

Definition globalIndexesForRange_then (response : JsVal) : Completion JsVal :=
  status ← getProp response "status";
  indexes ← getProp response "indexes";
  if negb (truthy status) || negb (truthy indexes)
  then Abrupt (Error (VString "Missing indexes or status key"))
  else
    lowered ← callToLowerCase status;
    if negb (String.eqb lowered "ok")
    then Abrupt (Error (VString "Status is not OK"))
    else Normal indexes.

Definition globalIndexesForRange (startHeight endHeight : JsVal) : Method :=
  fun w =>
    if isUndefined startHeight then throw "Must specify start height" w
    else if isUndefined endHeight then throw "Must specify end height" w
    else then_ (_rawPost "get_global_indexes_for_range"
                  (VObject [("startHeight", startHeight);
                            ("endHeight", endHeight)]))
           globalIndexesForRange_then w.

Definition height : Method := _get "height".

Definition info : Method := _get "info".

Definition lastBlockHeader : Method :=
  then_ (_post "getlastblockheader" VUndefined)
    (fun response => getProp response "block_header").

Definition peers : Method := _get "peers".

Definition poolChanges_then (response : JsVal) : Completion JsVal :=
  addedTxs ← getProp response "addedTxs";
  tmp ← forEach addedTxs pushTransaction [];
  setProp response "addedTxs" (VArray tmp).

Definition poolChanges (tailBlockHash knownTransactionHashes : JsVal) : Method :=
  fun w =>
    if isUndefined tailBlockHash then throw "must supply a tail block hash" w
    else if negb (isArray knownTransactionHashes)
    then throw "must supply an array of known transaction hashes" w
    else then_ (_rawPost "get_pool_changes_lite"
                  (VObject [("tailBlockId", tailBlockHash);
                            ("knownTxsIds", knownTransactionHashes)]))
           poolChanges_then w.

Definition randomOutputs (amounts mixin : JsVal) : Method :=
  fun w =>
    if negb (isArray amounts) then throw "must supply an array of amounts" w
    else if isUndefined mixin then throw "must supply a mixin value" w
    else
      match parseInt mixin with
      | Abrupt e => (Throws e, w)
      | Normal NaN => throw "must supply a valid mixin value" w
      | Normal mixin =>
          _rawPost "getrandom_outs"
            (VObject [("amounts", amounts); ("outs_count", VNum mixin)]) w
      end.

Definition rawBlocks_then (response : JsVal) : Completion JsVal :=
  blocks ← getProp response "response.blocks";
  current_height ← getProp response "response.current_height";
  start_height ← getProp response "response.start_height";
  status ← getProp response "response.status";
  Normal (VObject [("blocks", blocks);
                   ("current_height", current_height);
                   ("start_height", start_height);
                   ("status", status)]).

(** [isNaN(blockCount)] and [Math.abs(blockCount)] convert the argument
    with ToNumber, which throws for a value that has no primitive value. *)
Definition rawBlocks (blockHashes blockCount : JsVal) : Method :=
  fun w =>
    if negb (isArray blockHashes)
    then throw "must supply an array of block hashes" w
    else if negb (truthy blockCount)
    then then_ (_rawPost "getblocks" (VObject [("block_ids", blockHashes)]))
           rawBlocks_then w
    else
      match toNumber blockCount with
      | Abrupt e => (Throws e, w)
      | Normal NaN => throw "block count must be a number" w
      | Normal n =>
          then_ (_rawPost "getblocks"
                   (VObject (assign "blockCount" (VNum (abs n))
                               [("block_ids", blockHashes)])))
            rawBlocks_then w
      end.

Definition sendRawTransaction (transaction : JsVal) : Method :=
  fun w =>
    if negb (truthy transaction)
    then throw "must specify raw serialized transaction" w
    else _rawPost "sendrawtransaction" (VObject [("tx_as_hex", transaction)]) w.

Definition submitBlock (blockBlob : JsVal) : Method :=
  fun w =>
    if negb (truthy blockBlob) then throw "must specify blockBlob" w
    else _post "submitblock" (VArray [blockBlob]) w.

(** [if (response.tx && response.tx['']) delete response.tx['']]. *)
Definition transaction_then (response : JsVal) : Completion JsVal :=
  tx ← getProp response "tx";
  if truthy tx
  then
    empty ← getProp tx "";
    if truthy empty
    then match tx with
         | VObject o => setProp response "tx" (VObject (remove "" o))
         | _ => Normal response
         end
    else Normal response
  else Normal response.

Definition transaction (hash : JsVal) : Method :=
  fun w =>
    if negb (truthy hash) then throw "must specify hash" w
    else then_ (_post "f_transaction_json" (VObject [("hash", hash)]))
           transaction_then w.

Definition transactionPool : Method :=
  then_ (_post "f_on_transactions_pool_json" VUndefined)
    (fun response => getProp response "transactions").

Definition transactionsStatus_then (response : JsVal) : Completion JsVal :=
  status ← getProp response "status";
  transactionsInPool ← getProp response "transactionsInPool";
  transactionsInBlock ← getProp response "transactionsInBlock";
  transactionsUnknown ← getProp response "transactionsUnknown";
  if negb (truthy status) || negb (truthy transactionsInPool)
     || negb (truthy transactionsInBlock) || negb (truthy transactionsUnknown)
  then Abrupt (Error (VString "Missing status of transactions key"))
  else
    lowered ← callToLowerCase status;
    if negb (String.eqb lowered "ok")
    then Abrupt (Error (VString "Status is not OK"))
    else Normal (VObject [("transactionsInPool", transactionsInPool);
                          ("transactionsInBlock", transactionsInBlock);
                          ("transactionsUnknown", transactionsUnknown)]).

Definition transactionsStatus (transactionHashes : JsVal) : Method :=
  fun w =>
    if negb (isArray transactionHashes)
    then throw "Must specify transaction hashes" w
    else then_ (_rawPost "get_transactions_status"
                  (VObject [("transactionHashes", transactionHashes)]))
           transactionsStatus_then w.

Definition walletSyncData_then (response : JsVal) : Completion JsVal :=
  status ← getProp response "status";
  items ← getProp response "items";
  if negb (truthy status) || negb (truthy items)
  then Abrupt (Error (VString "Missing items or status key"))
  else
    lowered ← callToLowerCase status;
    if negb (String.eqb lowered "ok")
    then Abrupt (Error (VString "Status is not OK"))
    else Normal response.

Definition walletSyncData (opts : option loc) : Method :=
  fun w =>
    let '(opts, w) := orNewObject opts w in
    let w := if isUndefined (load opts "startHeight" w)
             then store opts "startHeight" (VNumber 0) w else w in
    let w := if isUndefined (load opts "startTimestamp" w)
             then store opts "startTimestamp" (VNumber 0) w else w in
    let w := if negb (truthy (load opts "blockHashCheckpoints" w))
             then store opts "blockHashCheckpoints" (VArray []) w else w in
    let w := if isUndefined (load opts "skipCoinbaseTransactions" w)
             then store opts "skipCoinbaseTransactions" (VBool false) w else w in
    then_ (_rawPost "getwalletsyncdata"
             (VObject [("startHeight", load opts "startHeight" w);
                       ("startTimestamp", load opts "startTimestamp" w);
                       ("blockHashCheckpoints", load opts "blockHashCheckpoints" w);
                       ("skipCoinbaseTransactions",
                        load opts "skipCoinbaseTransactions" w)]))
      walletSyncData_then w.

(** A call of a method of the instance [this]. *)
Definition invoke (c : Call) : Method :=
  match c with
  | Call_block hash => block hash
  | Call_blockCount => blockCount
  | Call_blockHeaderByHash hash => blockHeaderByHash hash
  | Call_blockHeaderByHeight height => blockHeaderByHeight height
  | Call_blockShortHeaders height => blockShortHeaders height
  | Call_blocksDetailed opts => blocksDetailed opts
  | Call_blocksLite opts => blocksLite opts
  | Call_blockTemplate walletAddress reserveSize =>
      blockTemplate walletAddress reserveSize
  | Call_fee => fee
  | Call_globalIndexes transactionHash => globalIndexes transactionHash
  | Call_globalIndexesForRange startHeight endHeight =>
      globalIndexesForRange startHeight endHeight
  | Call_height => height
  | Call_info => info
  | Call_lastBlockHeader => lastBlockHeader
  | Call_peers => peers
  | Call_poolChanges tailBlockHash knownTransactionHashes =>
      poolChanges tailBlockHash knownTransactionHashes
  | Call_randomOutputs amounts mixin => randomOutputs amounts mixin
  | Call_rawBlocks blockHashes blockCount => rawBlocks blockHashes blockCount
  | Call_sendRawTransaction transaction => sendRawTransaction transaction
  | Call_submitBlock blockBlob => submitBlock blockBlob
  | Call_transaction hash => transaction hash
  | Call_transactionPool => transactionPool
  | Call_transactionsStatus transactionHashes =>
      transactionsStatus transactionHashes
  | Call_walletSyncData opts => walletSyncData opts
  end.

End MONCoind.

(** ** Vocabulary of the properties *)

(** [v.k] for a value that is neither [undefined] nor [null]. *)
Definition prop (v : JsVal) (k : string) : JsVal :=
  match v with
  | VObject o => field k o
  | _ => VUndefined
  end.

(** The connection configuration of the instance at [this]: the values of
    the six fields the constructor sets. *)
Definition configNames : list string :=
  ["host"; "port"; "timeout"; "ssl"; "userAgent"; "keepAlive"].

Definition config (this : loc) (w : World) : list JsVal :=
  map (fun k => load this k w) configNames.

(** A field of an optional [opts] argument, as the caller left it. *)
Definition optsField (opts : option loc) (k : string) (w : World) : JsVal :=
  match opts with
  | Some l => load l k w
  | None => VUndefined
  end.

(** The calls whose arguments the documentation of the method rules out: a
    required argument is [undefined], an argument that has to be an array is
    not one, or the mixin fails the numeric check, [parseInt] reading it as
    [NaN]. *)
Definition invalidArguments (env : Platform) (w : World) (c : Call) : bool :=
  match c with
  | Call_block hash => isUndefined hash
  | Call_blockHeaderByHash hash => isUndefined hash
  | Call_blockHeaderByHeight height => isUndefined height
  | Call_blockShortHeaders height => isUndefined height
  | Call_blocksDetailed opts => negb (isArray (optsField opts "blockHashes" w))
  | Call_blocksLite opts => negb (isArray (optsField opts "blockHashes" w))
  | Call_blockTemplate walletAddress reserveSize =>
      isUndefined walletAddress || isUndefined reserveSize
  | Call_globalIndexes transactionHash => isUndefined transactionHash
  | Call_globalIndexesForRange startHeight endHeight =>
      isUndefined startHeight || isUndefined endHeight
  | Call_poolChanges tailBlockHash knownTransactionHashes =>
      isUndefined tailBlockHash || negb (isArray knownTransactionHashes)
  | Call_randomOutputs amounts mixin =>
      negb (isArray amounts) || isUndefined mixin
      || match parseInt env mixin with Normal NaN => true | _ => false end
  | Call_rawBlocks blockHashes _ => negb (isArray blockHashes)
  | Call_sendRawTransaction transaction => isUndefined transaction
  | Call_submitBlock blockBlob => isUndefined blockBlob
  | Call_transaction hash => isUndefined hash
  | Call_transactionsStatus transactionHashes =>
      negb (isArray transactionHashes)
  | Call_blockCount | Call_fee | Call_height | Call_info
  | Call_lastBlockHeader | Call_peers | Call_transactionPool
  | Call_walletSyncData _ => false
  end.

(** Reading hexadecimal back: the value of a lower-case digit, and the bytes
    of a string of digit pairs. *)
Definition lowerHexValue (c : ascii) : option Z :=
  let n := Z.of_nat (nat_of_ascii c) in
  if (48 <=? n)%Z && (n <=? 57)%Z then Some (n - 48)%Z
  else if (97 <=? n)%Z && (n <=? 102)%Z then Some (n - 87)%Z
  else None.

Fixpoint fromHex (s : string) : option (list Z) :=
  match s with
  | EmptyString => Some []
  | String hi (String lo s') =>
      h ← lowerHexValue hi; l ← lowerHexValue lo; bs ← fromHex s';
      Some ((16 * h + l)%Z :: bs)
  | String _ EmptyString => None
  end.

(** The optional [opts] address a call is handed. *)
Definition optsOf (c : Call) : option loc :=
  match c with
  | Call_blocksDetailed opts | Call_blocksLite opts
  | Call_walletSyncData opts => opts
  | _ => None
  end.

(** The members the methods give a default in an [opts] object. *)
Definition defaultedNames : list string :=
  ["timestamp"; "blockCount"; "startHeight"; "startTimestamp";
   "blockHashCheckpoints"; "skipCoinbaseTransactions"].

(** [res] is the result of a call started in [w] that got past its checks:
    it handed one request, built from the configuration of [this], to the
    HTTP library, a GET without a body or a POST with an object as body; it
    threw what the library threw, or returned the promise, which a failure
    of the transport rejects. *)
Definition Delivered (env : Platform) (this : loc) (w : World)
    (res : Outcome * World) : Prop :=
  ∃ verb path payload w1,
    sent w1 = sent w
    ∧ config this w1 = config this w
    ∧ snd res = {| heap := heap w1;
                   sent := sent w1 ++ [options this verb path payload w1] |}
    ∧ path ≠ ""
    ∧ match verb with
      | GET => payload = None
      | POST => ∃ o, payload = Some (VObject o)
      end
    ∧ match daemon env (options this verb path payload w1) with
      | Raised e => fst res = Throws e
      | NetworkError e => fst res = Rejects (TransportError e)
      | Parsed _ => ∀ e, fst res ≠ Throws e
      end.

(** The methods that return the promise of the HTTP library as it is,
    with no callback of their own. *)
Definition returnsReply (c : Call) : bool :=
  match c with
  | Call_fee | Call_height | Call_info | Call_peers
  | Call_blocksDetailed _ | Call_randomOutputs _ _
  | Call_sendRawTransaction _ => true
  | _ => false
  end.

(** The methods whose callback returns one member of the JSON-RPC result,
    with the name of the member as the code spells it. *)
Definition returnsMember (c : Call) : option string :=
  match c with
  | Call_block _ => Some "block"
  | Call_blockCount => Some "count"
  | Call_blockHeaderByHash _ => Some "block_head"
  | Call_blockHeaderByHeight _ => Some "block_header"
  | Call_blockShortHeaders _ => Some "blocks"
  | Call_lastBlockHeader => Some "block_header"
  | Call_transactionPool => Some "transactions"
  | _ => None
  end.

(** [o'] is [o] after some of the defaulted members were written: every
    other member is as it was, and no member is gone. *)
Definition onlyDefaulted (o o' : Obj) : Prop :=
  (∀ k, k ∉ defaultedNames → own k o' = own k o)
  ∧ (∀ k, is_Some (own k o) → is_Some (own k o')).

(** From [w] to [w'] no object of the heap was removed, none but the one at
    [target] was changed, and that one only in its defaulted members. *)
Definition touchesOnly (target : option loc) (w w' : World) : Prop :=
  ∀ (l : loc) (o : Obj),
    heap w !! l = Some o →
    ∃ o', heap w' !! l = Some o'
          ∧ (target ≠ Some l → o' = o)
          ∧ onlyDefaulted o o'.

(** The record [{hash, prefix}] the reshaping loops make of a transaction
    entry. *)
Definition pairOf (tx : JsVal) : JsVal :=
  VObject [("hash", prop tx "transactionPrefixInfo.txHash");
           ("prefix", prop tx "transactionPrefixInfo.txPrefix")].

(** The values a member can be read from: all but [undefined] and [null]. *)
Definition hasMembers (v : JsVal) : bool :=
  match v with
  | VUndefined | VNull => false
  | _ => true
  end.

(** An entry of a block that is an integer. *)
Definition isInteger (v : JsVal) : bool :=
  match v with VNumber _ => true | _ => false end.

(** The bytes of an array of integers. *)
Definition bytesOf (v : JsVal) : list Z :=
  match v with
  | VArray xs =>
      map (fun x => match x with VNumber n => (n mod 256)%Z | _ => 0%Z end) xs
  | _ => []
  end.

Definition pairsOf (v : JsVal) : list JsVal :=
  match v with
  | VArray txs => map pairOf txs
  | _ => []
  end.

(** An item of a [queryblockslite] reply as the daemon sends it: an object
    whose [blockShortInfo.txPrefixes] is an array without [null] entries and
    whose [blockShortInfo.block] is an array of integers. *)
Definition reshapable (item : JsVal) : bool :=
  match prop item "blockShortInfo.txPrefixes" with
  | VArray txs => forallb hasMembers txs
  | _ => false
  end
  && match prop item "blockShortInfo.block" with
     | VArray xs => forallb isInteger xs
     | _ => false
     end.

(** The record [{block, hash, transactions}] of such an item. *)
Definition reshaped (item : JsVal) : JsVal :=
  VObject
    [("block",
      VString (toString_hex (bytesOf (prop item "blockShortInfo.block"))));
     ("hash", prop item "blockShortInfo.blockId");
     ("transactions", VArray (pairsOf (prop item "blockShortInfo.txPrefixes")))].

(** The last part of the address a request goes to. *)
Definition endpointOf (r : Request) : string := snd (uri r).

(** The methods that go through [_post]. *)
Definition viaJsonRpc (c : Call) : bool :=
  match c with
  | Call_block _ | Call_blockCount | Call_blockHeaderByHash _
  | Call_blockHeaderByHeight _ | Call_blockShortHeaders _
  | Call_blockTemplate _ _ | Call_lastBlockHeader | Call_submitBlock _
  | Call_transaction _ | Call_transactionPool => true
  | _ => false
  end.

(** The methods whose callback checks the [status] of the reply. *)
Definition statusChecked (c : Call) : bool :=
  match c with
  | Call_globalIndexes _ | Call_globalIndexesForRange _ _
  | Call_transactionsStatus _ | Call_walletSyncData _ => true
  | _ => false
  end.

(** A daemon that cannot be reached. *)
Definition unreachable : Platform :=
  {| daemon := fun _ => NetworkError "ECONNREFUSED";
     packageInfo := ("moncoin-rpc", "0.0.0");
     StringToNumber := fun _ => NaN;
     NumberToString := pretty;
     Buffer_from_object := fun _ => Abrupt TypeError |}.

(** ** Sample platforms, clients and replies *)

(** A daemon that answers every request with [response]. *)
Definition answering (response : JsVal) : Platform :=
  {| daemon := fun _ => Parsed response;
     packageInfo := ("moncoin-rpc", "0.0.0");
     StringToNumber := fun _ => NaN;
     NumberToString := pretty;
     Buffer_from_object := fun _ => Abrupt TypeError |}.

Definition nowhere : World := {| heap := ∅; sent := [] |}.

(** [new MONCoind()] in an empty world. *)
Definition client : loc := fst (constructor (answering VNull) VUndefined nowhere).
Definition started : World := snd (constructor (answering VNull) VUndefined nowhere).

(** A caller's options object next to the client. *)
Definition callerOpts : loc := 2%positive.
Definition withOpts (o : Obj) : World :=
  {| heap := <[callerOpts := o]> (heap started); sent := [] |}.

Definition sampleHash : JsVal :=
  VString "7fb97df81221dd1366051b2d0bc7f49c66c22ac4431d879c895b06d66ef66f4c".

(** A JSON-RPC reply around [result]. *)
Definition envelope (result : JsVal) : JsVal :=
  VObject [("jsonrpc", VString "2.0"); ("id", VNull); ("result", result)].


Definition sampleHeader : JsVal :=
  VObject [("hash", sampleHash); ("height", VNumber 5); ("nonce", VNumber 7)].

Definition headerResult : JsVal :=
  VObject [("block_header", sampleHeader); ("status", VString "OK")].

(** A reply to [get_o_indexes] that has the indexes and no [status]. *)
Definition statuslessIndexes : JsVal :=
  VObject [("o_indexes", VArray [VNumber 1; VNumber 2; VNumber 3])].

(** One block of a [queryblockslite] reply, with one transaction. *)
Definition liteItem : JsVal :=
  VObject [("blockShortInfo.block", VArray [VNumber 0; VNumber 255; VNumber 16]);
           ("blockShortInfo.blockId", sampleHash);
           ("blockShortInfo.txPrefixes",
            VArray [VObject [("transactionPrefixInfo.txHash", VString "aa");
                             ("transactionPrefixInfo.txPrefix",
                              VObject [("version", VNumber 1)])]])].

Definition liteResponse : JsVal :=
  VObject [("currentHeight", VNumber 10);
           ("items", VArray [liteItem]);
           ("status", VString "OK")].

(** A [get_pool_changes_lite] reply with two added transactions. *)
Definition poolAdded : list JsVal :=
  [VObject [("transactionPrefixInfo.txHash", VString "aa");
            ("transactionPrefixInfo.txPrefix", VObject [("version", VNumber 1)])];
   VObject [("transactionPrefixInfo.txHash", VString "bb");
            ("transactionPrefixInfo.txPrefix", VObject [("version", VNumber 2)])]].

Definition poolResponse : JsVal :=
  VObject [("addedTxs", VArray poolAdded);
           ("deletedTxsIds", VArray []);
           ("isTailBlockActual", VBool true);
           ("status", VString "OK")].

(** What [blocksLite] makes of [liteItem] and of [liteResponse]. *)
Definition liteBlock : JsVal :=
  VObject [("block", VString "00ff10");
           ("hash", sampleHash);
           ("transactions",
            VArray [VObject [("hash", VString "aa");
                             ("prefix", VObject [("version", VNumber 1)])]])].

Definition liteNormalized : JsVal :=
  VObject [("currentHeight", VNumber 10);
           ("items", VArray [liteBlock]);
           ("status", VString "OK")].

(** What [poolChanges] makes of [poolResponse]. *)
Definition poolNormalized : JsVal :=
  VObject [("addedTxs",
            VArray [VObject [("hash", VString "aa");
                             ("prefix", VObject [("version", VNumber 1)])];
                    VObject [("hash", VString "bb");
                             ("prefix", VObject [("version", VNumber 2)])]]);
           ("deletedTxsIds", VArray []);
           ("isTailBlockActual", VBool true);
           ("status", VString "OK")].

(** A [getblocks] reply. *)
Definition rawResponse : JsVal :=
  VObject [("response.blocks", VArray []);
           ("response.current_height", VNumber 12);
           ("response.start_height", VNumber 11);
           ("response.status", VString "OK")].

(** Two [f_transaction_json] results whose [tx] has the empty name: once
    with a value, once with the empty string. *)
Definition signedTx : Obj :=
  [("", VString "a1b2c3"); ("unlock_time", VNumber 0); ("version", VNumber 1)].

Definition signedResult : Obj :=
  [("status", VString "OK"); ("tx", VObject signedTx);
   ("txDetails", VObject [("fee", VNumber 10)])].

Definition unsignedTx : Obj :=
  [("", VString ""); ("unlock_time", VNumber 40); ("version", VNumber 1)].

Definition unsignedResult : Obj :=
  [("status", VString "OK"); ("tx", VObject unsignedTx);
   ("txDetails", VObject [("fee", VNumber 0)])].

(** Options that name one known block and nothing else. *)
Definition hashesOnly : Obj := [("blockHashes", VArray [sampleHash])].

(** The request of [blockCount()] and of [fee()] from the sample client. *)
Definition countRequest : Request :=
  options client POST "json_rpc"
    (Some (VObject [("jsonrpc", VString "2.0");
                    ("method", VString "getblockcount");
                    ("params", VObject [])])) started.

Definition feeRequest : Request := options client GET "fee" None started.

(** The fields of the sample client. *)
Definition clientFields : Obj :=
  [("host", VString "127.0.0.1"); ("port", VNumber 12898);
   ("timeout", VNumber 2000); ("ssl", VBool false);
   ("userAgent", VString "moncoin-rpc/0.0.0"); ("keepAlive", VBool true)].


(** An envelope that reports an error. *)
Definition failedEnvelope : JsVal :=
  VObject [("jsonrpc", VString "2.0");
           ("error", VObject [("code", VNumber (-32603));
                              ("message", VString "Internal error")])].

(** A [get_o_indexes] reply that went well. *)
Definition okIndexes : JsVal :=
  VObject [("status", VString "OK");
           ("o_indexes", VArray [VNumber 1; VNumber 2; VNumber 3])].

(** The request of [blocksLite] for [hashesOnly] from the sample client. *)
Definition liteRequest : Request :=
  options client POST "queryblockslite"
    (Some (VObject [("blockIds", VArray [sampleHash]);
                    ("timestamp", VNumber 0)])) started.

(** A block whose numbers are no bytes, and a reply with it. *)
Definition wrappedItem : JsVal :=
  VObject [("blockShortInfo.block",
            VArray [VNumber 256; VNumber (-1); VNumber 16]);
           ("blockShortInfo.blockId", sampleHash);
           ("blockShortInfo.txPrefixes", VArray [])].

Definition wrappedResponse : JsVal := VObject [("items", VArray [wrappedItem])].

(** * Properties *)

(** ** Objects *)

Lemma own_assign_eq k v o : own k (assign k v o) = Some v.
Proof.
  induction o as [|[k' v'] o IH]; simpl.
  - by rewrite String.eqb_refl.
  - destruct (String.eqb_spec k' k) as [->|Hne]; simpl.
    + by rewrite String.eqb_refl.
    + by destruct (String.eqb_spec k' k).
Qed.

Lemma own_assign_ne k k' v o : k ≠ k' → own k (assign k' v o) = own k o.
Proof.
  intros Hne. induction o as [|[k0 v0] o IH]; simpl.
  - destruct (String.eqb_spec k' k); congruence.
  - destruct (String.eqb_spec k0 k') as [->|Hne']; simpl.
    + destruct (String.eqb_spec k' k); congruence.
    + destruct (String.eqb_spec k0 k); congruence.
Qed.

Lemma own_remove_eq k o : own k (remove k o) = None.
Proof.
  induction o as [|[k' v'] o IH]; simpl; [done|].
  destruct (String.eqb_spec k' k) as [->|Hne]; simpl; [done|].
  by destruct (String.eqb_spec k' k).
Qed.

Lemma own_remove_ne k k' o : k ≠ k' → own k (remove k' o) = own k o.
Proof.
  intros Hne. induction o as [|[k0 v0] o IH]; simpl; [done|].
  destruct (String.eqb_spec k0 k') as [->|Hne']; simpl.
  - destruct (String.eqb_spec k' k); congruence.
  - destruct (String.eqb_spec k0 k); congruence.
Qed.

Lemma remove_absent k o : own k o = None → remove k o = o.
Proof.
  induction o as [|[k' v'] o IH]; simpl; [done|].
  destruct (String.eqb_spec k' k); [done|]. intros H. by rewrite IH.
Qed.

Lemma keys_assign_present k v x o :
  own k o = Some x → keys (assign k v o) = keys o.
Proof.
  induction o as [|[k' v'] o IH]; simpl; [done|].
  destruct (String.eqb_spec k' k); simpl; [done|].
  intros H. f_equal. by apply IH.
Qed.

Lemma field_absent k o : own k o = None → field k o = VUndefined.
Proof. intros H. unfold field. by rewrite H. Qed.

Lemma field_assign_ne k k' v o : k ≠ k' → field k (assign k' v o) = field k o.
Proof. intros. unfold field. by rewrite own_assign_ne. Qed.

Lemma field_assign_eq k v o : field k (assign k v o) = v.
Proof. unfold field. by rewrite own_assign_eq. Qed.

(** ** The heap *)

Lemma load_store_eq l k v w : load l k (store l k v w) = v.
Proof.
  unfold load, store; simpl. rewrite lookup_insert_eq; simpl.
  apply field_assign_eq.
Qed.

Lemma load_store_ne l l' k k' v w :
  k ≠ k' → load l k (store l' k' v w) = load l k w.
Proof.
  intros Hne. unfold load, store; simpl.
  destruct (decide (l' = l)) as [->|Hl].
  - rewrite lookup_insert_eq; simpl. by apply field_assign_ne.
  - by rewrite lookup_insert_ne.
Qed.

Lemma load_store_other l l' k k' v w :
  l ≠ l' → load l k (store l' k' v w) = load l k w.
Proof. intros Hne. unfold load, store; simpl. by rewrite lookup_insert_ne. Qed.

Lemma newObject_fresh w : heap w !! (fst (newObject w)) = None.
Proof. simpl. apply not_elem_of_dom, is_fresh. Qed.

Lemma load_newObject l k w : load l k (snd (newObject w)) = load l k w.
Proof.
  unfold load; simpl.
  destruct (decide (fresh (dom (heap w)) = l)) as [<-|Hl].
  - rewrite lookup_insert_eq.
    by rewrite (proj1 (not_elem_of_dom (heap w) _) (is_fresh (dom (heap w)))).
  - by rewrite lookup_insert_ne.
Qed.

Lemma lookup_newObject l o w :
  heap w !! l = Some o → heap (snd (newObject w)) !! l = Some o.
Proof.
  intros H; simpl. rewrite lookup_insert_ne; [done|].
  intros Heq. pose proof (newObject_fresh w) as Hf. simpl in Hf. congruence.
Qed.

Lemma config_store this l k v w :
  k ∉ configNames → config this (store l k v w) = config this w.
Proof.
  intros Hk. unfold config. apply map_ext_in. intros k' Hin.
  apply load_store_ne. intros ->. apply Hk. by apply list_elem_of_In.
Qed.

Lemma config_newObject this w : config this (snd (newObject w)) = config this w.
Proof. unfold config. apply map_ext. intros k. apply load_newObject. Qed.

Lemma config_heap this w w' : heap w' = heap w → config this w' = config this w.
Proof. intros H. unfold config, load. by rewrite H. Qed.

(** ** Requests *)

Section Transport.

Context (env : Platform) (this : loc).

Lemma snd_then_ p f w : snd (then_ p f w) = snd (p w).
Proof. unfold then_. by destruct (p w) as [[] ?]. Qed.

Lemma request_world r w :
  snd (request env r w) = {| heap := heap w; sent := sent w ++ [r] |}.
Proof. done. Qed.

Lemma _rawPost_heap endpoint payload w :
  heap (snd (_rawPost env this endpoint payload w)) = heap w.
Proof.
  unfold _rawPost. destruct (String.eqb endpoint ""); [done|].
  by destruct (isUndefined payload).
Qed.

Lemma _get_heap path w : heap (snd (_get env this path w)) = heap w.
Proof. unfold _get. by destruct (String.eqb path ""). Qed.

Lemma _post_heap name params w :
  heap (snd (_post env this name params w)) = heap w.
Proof.
  unfold _post. destruct (String.eqb name ""); [done|].
  rewrite snd_then_. apply _rawPost_heap.
Qed.

(** A request that is built from a non-empty endpoint and a body goes out. *)
Lemma _rawPost_sends endpoint payload w :
  endpoint ≠ "" → isUndefined payload = false →
  _rawPost env this endpoint payload w
  = request env (options this POST endpoint (Some payload) w) w.
Proof.
  intros He Hb. unfold _rawPost.
  destruct (String.eqb_spec endpoint ""); [done|]. by rewrite Hb.
Qed.

Lemma orNewObject_sent opts w : sent (snd (orNewObject opts w)) = sent w.
Proof. by destruct opts. Qed.

(** *** What the log tells *)

Lemma sent_grows (xs : list Request) r : xs ++ [r] ≠ xs.
Proof.
  intros H. apply (f_equal length) in H. rewrite length_app in H. simpl in H. lia.
Qed.

Lemma fst_request r (w : World) :
  fst (request env r w)
  = match daemon env r with
    | Raised e => Throws e
    | NetworkError e => Rejects (TransportError e)
    | Parsed response => Resolves response
    end.
Proof. done. Qed.

Lemma sent_request_inv (w w0 : World) r r' :
  sent w = sent w0 →
  sent (snd (request env r' w)) = sent w0 ++ [r] → r' = r.
Proof.
  intros Hs. rewrite request_world; cbn [sent]. rewrite Hs.
  intros H. by apply app_inj_tail in H as [_ ->].
Qed.

Lemma sent_same_inv (w w0 : World) r :
  sent w = sent w0 → sent w = sent w0 ++ [r] → False.
Proof. intros -> H. symmetry in H. by apply sent_grows in H. Qed.

Lemma sent_throw_inv message (w w0 : World) r :
  sent w = sent w0 → sent (snd (throw message w)) = sent w0 ++ [r] → False.
Proof. unfold throw; cbn [snd]. apply sent_same_inv. Qed.

Lemma sent_get_inv path (w w0 : World) r :
  sent w = sent w0 →
  sent (snd (_get env this path w)) = sent w0 ++ [r] →
  r = options this GET path None w.
Proof.
  intros Hs. unfold _get. destruct (String.eqb path "").
  - intros H. by destruct (sent_throw_inv _ _ _ _ Hs H).
  - intros H. symmetry. by apply (sent_request_inv w w0).
Qed.

Lemma sent_rawPost_inv endpoint payload (w w0 : World) r :
  sent w = sent w0 →
  sent (snd (_rawPost env this endpoint payload w)) = sent w0 ++ [r] →
  r = options this POST endpoint (Some payload) w.
Proof.
  intros Hs. unfold _rawPost.
  destruct (String.eqb endpoint "");
    [|destruct (isUndefined payload)]; cbn [snd].
  1,2: intros H; by destruct (sent_same_inv _ _ _ Hs H).
  intros H. symmetry. by apply (sent_request_inv w w0).
Qed.

Lemma sent_rawPost_request endpoint payload (w w0 : World) r :
  sent w = sent w0 →
  sent (snd (_rawPost env this endpoint payload w)) = sent w0 ++ [r] →
  _rawPost env this endpoint payload w = request env r w.
Proof.
  intros Hs Hr. pose proof (sent_rawPost_inv _ _ _ _ _ Hs Hr) as ->.
  revert Hr. unfold _rawPost.
  destruct (String.eqb endpoint "");
    [|destruct (isUndefined payload)]; cbn [snd]; [| |done].
  1,2: intros H; by destruct (sent_same_inv _ _ _ Hs H).
Qed.

Lemma sent_post_inv name params (w w0 : World) r :
  sent w = sent w0 →
  sent (snd (_post env this name params w)) = sent w0 ++ [r] →
  r = options this POST "json_rpc"
        (Some (VObject [("jsonrpc", VString "2.0");
                        ("method", VString name);
                        ("params", or_else params (VObject []))])) w
  ∧ name ≠ "".
Proof.
  intros Hs. unfold _post. destruct (String.eqb_spec name "") as [->|Hne].
  - intros H. by destruct (sent_throw_inv _ _ _ _ Hs H).
  - rewrite snd_then_. intros H. split; [|done].
    by apply (sent_rawPost_inv _ _ w w0).
Qed.

(** A call of [_rawPost] with a callback, once the request it handed over is
    known and the library has answered it. *)
Lemma then_rawPost_parsed endpoint payload f (w w0 : World) r response :
  sent w = sent w0 →
  sent (snd (then_ (_rawPost env this endpoint payload) f w)) = sent w0 ++ [r] →
  daemon env r = Parsed response →
  fst (then_ (_rawPost env this endpoint payload) f w)
  = match f response with
    | Normal v => Resolves v
    | Abrupt e => Rejects e
    end.
Proof.
  intros Hs Hr Hd. rewrite snd_then_ in Hr.
  unfold then_. rewrite (sent_rawPost_request _ _ _ _ _ Hs Hr).
  unfold request. by rewrite Hd.
Qed.

Lemma then_rawPost_resolved endpoint payload f (w w0 : World) r out :
  sent w = sent w0 →
  sent (snd (then_ (_rawPost env this endpoint payload) f w)) = sent w0 ++ [r] →
  fst (then_ (_rawPost env this endpoint payload) f w) = Resolves out →
  ∃ response, daemon env r = Parsed response ∧ f response = Normal out.
Proof.
  intros Hs Hr. rewrite snd_then_ in Hr.
  unfold then_. rewrite (sent_rawPost_request _ _ _ _ _ Hs Hr).
  unfold request.
  destruct (daemon env r) as [e|e|response]; [discriminate..|].
  cbn [fst]. destruct (f response) as [v|] eqn:Hf; [|discriminate].
  intros H. injection H as <-. by exists response.
Qed.

End Transport.

(** Keys the methods write into an [opts] object are not configuration
    fields. *)
Lemma opts_key_not_config k :
  k ∈ ["timestamp"; "blockCount"; "startHeight"; "startTimestamp";
       "blockHashCheckpoints"; "skipCoinbaseTransactions"] →
  k ∉ configNames.
Proof.
  intros Hk Hc. unfold configNames in Hc.
  repeat (apply elem_of_cons in Hk as [->|Hk];
          [repeat (apply elem_of_cons in Hc as [Hc|Hc]; [discriminate Hc|]);
           by apply elem_of_nil in Hc|]).
  by apply elem_of_nil in Hk.
Qed.

(** ** The configuration is written by the constructor only *)

Section Configuration.

Context (env : Platform).

Lemma config_rawPost l this endpoint payload w :
  config l (snd (_rawPost env this endpoint payload w)) = config l w.
Proof. apply config_heap, _rawPost_heap. Qed.

Lemma config_post l this name params w :
  config l (snd (_post env this name params w)) = config l w.
Proof. apply config_heap, _post_heap. Qed.

Lemma config_get l this path w :
  config l (snd (_get env this path w)) = config l w.
Proof. apply config_heap, _get_heap. Qed.

Lemma config_orNewObject l opts w :
  config l (snd (orNewObject opts w)) = config l w.
Proof. destruct opts; [done|]. apply config_newObject. Qed.

Ltac frame :=
  unfold throw; cbn [snd];
  rewrite ?snd_then_, ?config_rawPost, ?config_post, ?config_get;
  repeat (rewrite config_store
            by (apply opts_key_not_config;
                repeat first [apply list_elem_of_here | apply list_elem_of_further]));
  rewrite ?config_orNewObject;
  try reflexivity.

Lemma blocksDetailed_config this opts w :
  config this (snd (blocksDetailed env this opts w)) = config this w.
Proof.
  unfold blocksDetailed.
  pose proof (config_orNewObject this opts w) as Hnew.
  destruct (orNewObject opts w) as [l w0]; simpl in Hnew.
  repeat case_match; frame; done.
Qed.

Lemma blocksLite_config this opts w :
  config this (snd (blocksLite env this opts w)) = config this w.
Proof.
  unfold blocksLite.
  pose proof (config_orNewObject this opts w) as Hnew.
  destruct (orNewObject opts w) as [l w0]; simpl in Hnew.
  repeat case_match; frame; done.
Qed.

Lemma walletSyncData_config this opts w :
  config this (snd (walletSyncData env this opts w)) = config this w.
Proof.
  unfold walletSyncData.
  pose proof (config_orNewObject this opts w) as Hnew.
  destruct (orNewObject opts w) as [l w0]; simpl in Hnew.
  repeat case_match; frame; done.
Qed.

(** What [new MONCoind(opts)] leaves in the six fields. *)
Lemma constructor_config opts w :
  config (fst (constructor env opts w)) (snd (constructor env opts w))
  = [or_else (prop opts "host") (VString "127.0.0.1");
     or_else (prop opts "port") (VNumber 12898);
     or_else (prop opts "timeout") (VNumber 2000);
     or_else (prop opts "ssl") (VBool false);
     or_else (prop opts "userAgent")
       (VString (fst (packageInfo env) +:+ "/" +:+ snd (packageInfo env)));
     if isUndefined (prop opts "keepAlive") then VBool true
     else prop opts "keepAlive"].
Proof.
  assert (Hopts : ∀ k,
    field k match or_else opts (VObject []) with VObject o => o | _ => [] end
    = prop opts k).
  { intros k. unfold or_else. destruct opts as [| |[]|n|s|xs|o| |[]]; simpl; try done.
    - by destruct (n =? 0)%Z.
    - by destruct (String.eqb s ""). }
  unfold constructor, config, configNames. cbn [map fst snd newObject].
  rewrite !Hopts.
  repeat f_equal;
    repeat (rewrite load_store_ne by discriminate);
    rewrite ?load_store_eq; try done.
  by destruct (isUndefined _).
Qed.

Lemma invoke_config this c w :
  config this (snd (invoke env this c w)) = config this w.
Proof.
  destruct c; cbn [invoke];
    lazymatch goal with
    | |- context [blocksDetailed] => apply blocksDetailed_config
    | |- context [blocksLite] => apply blocksLite_config
    | |- context [walletSyncData] => apply walletSyncData_config
    | _ =>
        unfold block, blockCount, blockHeaderByHash, blockHeaderByHeight,
          blockShortHeaders, blockTemplate, fee, globalIndexes,
          globalIndexesForRange, height, info, lastBlockHeader, peers,
          poolChanges, randomOutputs, rawBlocks, sendRawTransaction,
          submitBlock, transaction, transactionPool, transactionsStatus;
        repeat case_match; frame
    end.
Qed.

(** C9.  The six configuration fields (host, port, timeout, ssl, userAgent,
    keepAlive) hold what the constructor computed from its options, and no
    method changes any of them: whatever the call, its arguments (an [opts]
    object that is the client itself included), the daemon's reply and the
    world, the configuration after the call is the configuration before
    it. *)
Theorem configuration_never_mutated :
  (∀ opts w,
     config (fst (constructor env opts w)) (snd (constructor env opts w))
     = [or_else (prop opts "host") (VString "127.0.0.1");
        or_else (prop opts "port") (VNumber 12898);
        or_else (prop opts "timeout") (VNumber 2000);
        or_else (prop opts "ssl") (VBool false);
        or_else (prop opts "userAgent")
          (VString (fst (packageInfo env) +:+ "/" +:+ snd (packageInfo env)));
        if isUndefined (prop opts "keepAlive") then VBool true
        else prop opts "keepAlive"])
  ∧ (∀ this c w, config this (snd (invoke env this c w)) = config this w).
Proof. split; [apply constructor_config | apply invoke_config]. Qed.

End Configuration.

(** ** Argument validation comes first *)

Section Validation.

Context (env : Platform) (this : loc).

Lemma blockHashes_orNewObject opts w :
  load (fst (orNewObject opts w)) "blockHashes" (snd (orNewObject opts w))
  = optsField opts "blockHashes" w.
Proof.
  destruct opts as [l|]; [done|]. cbn [orNewObject optsField].
  rewrite load_newObject. unfold load. by rewrite newObject_fresh.
Qed.

Lemma orNewObject_keeps opts w l o :
  heap w !! l = Some o → heap (snd (orNewObject opts w)) !! l = Some o.
Proof. destruct opts; [done|]. apply lookup_newObject. Qed.

Ltac refuted :=
  match goal with
  | E : ?t = _, H : context [?t] |- _ => rewrite E in H; discriminate H
  end.

(** C4, as the code has it.  A call whose required argument is missing,
    whose array argument is not an array, or whose mixin fails the numeric
    check, [parseInt] reading it as [NaN], throws an [Error] with a message
    while the method body runs: no request is handed to the HTTP library,
    and every object the caller holds is as it was.  A mixin that cannot be
    converted to a string, an object whose own [toString] is no function,
    does not get as far as the check: the call throws as early and hands
    over nothing, but what it throws is the TypeError of the conversion. *)
Theorem invalid_arguments_throw_before_request :
  (∀ c w,
     invalidArguments env w c = true →
     ∃ message,
       fst (invoke env this c w) = Throws (Error (VString message))
       ∧ sent (snd (invoke env this c w)) = sent w
       ∧ ∀ l o, heap w !! l = Some o →
                heap (snd (invoke env this c w)) !! l = Some o)
  ∧ (∀ amounts o w,
       isArray amounts = true →
       is_Some (own "toString" o) →
       invoke env this (Call_randomOutputs amounts (VObject o)) w
       = (Throws TypeError, w)).
Proof.
  split.
  2: { intros amounts o w Ha [v Hv]. cbn [invoke].
       unfold randomOutputs, parseInt. rewrite Ha.
       cbn [negb isUndefined jsToString]. by rewrite Hv. }
  intros c w H.
  destruct c; cbn [invoke invalidArguments] in *; try discriminate H.
  all: try (pose proof (blockHashes_orNewObject opts w) as Hb;
            pose proof (orNewObject_keeps opts w) as Hk;
            pose proof (orNewObject_sent opts w) as Hs;
            unfold blocksDetailed, blocksLite;
            destruct (orNewObject opts w) as [l' w']; cbn [fst snd] in *;
            rewrite Hb, H; unfold throw; cbn [fst snd]; by eauto).
  all: repeat match goal with
       | H : _ || _ = true |- _ => apply orb_true_iff in H as [H|H]
       | H : isUndefined ?v = true |- _ => destruct v; try discriminate H; clear H
       end.
  all: unfold block, blockHeaderByHash, blockHeaderByHeight, blockShortHeaders,
         blockTemplate, globalIndexes, globalIndexesForRange, poolChanges,
         randomOutputs, rawBlocks, sendRawTransaction, submitBlock,
         transaction, transactionsStatus, throw; cbn [truthy isUndefined negb].
  all: rewrite ?H; repeat case_match; cbn [fst snd]; try refuted; try by eauto.
Qed.
End Validation.

Lemma invalid_arguments_throw_before_request_witness :
  invalidArguments (answering VNull) (withOpts [("blockHashes", VString "abc")])
    (Call_blocksDetailed (Some callerOpts)) = true
  ∧ ∃ message,
      fst (invoke (answering VNull) client (Call_blocksDetailed (Some callerOpts))
             (withOpts [("blockHashes", VString "abc")]))
      = Throws (Error (VString message))
      ∧ sent (snd (invoke (answering VNull) client
                     (Call_blocksDetailed (Some callerOpts))
                     (withOpts [("blockHashes", VString "abc")])))
        = sent (withOpts [("blockHashes", VString "abc")])
      ∧ ∀ l o, heap (withOpts [("blockHashes", VString "abc")]) !! l = Some o →
               heap (snd (invoke (answering VNull) client
                            (Call_blocksDetailed (Some callerOpts))
                            (withOpts [("blockHashes", VString "abc")]))) !! l
               = Some o.
Proof.
  split; [vm_compute; reflexivity|].
  apply (proj1 (invalid_arguments_throw_before_request (answering VNull) client)).
  vm_compute; reflexivity.
Defined.

(** A mixin without a string: [{toString: null}] is no number, and the call
    throws a TypeError where an [Error] with the message of the method is
    due. *)
Lemma randomOutputs_unconvertible_mixin :
  invoke (answering VNull) client
    (Call_randomOutputs (VArray [VNumber 100]) (VObject [("toString", VNull)]))
    started
  = (Throws TypeError, started)
  ∧ ∀ message,
      fst (invoke (answering VNull) client
             (Call_randomOutputs (VArray [VNumber 100])
                (VObject [("toString", VNull)])) started)
      ≠ Throws (Error (VString message)).
Proof. split; [vm_compute; reflexivity|]. intros message. vm_compute. discriminate. Qed.

(** The mixin [parseInt] cannot read is refused before anything is sent. *)
Example randomOutputs_letters :
  invoke (answering VNull) client
    (Call_randomOutputs (VArray [VNumber 100]) (VString "three")) started
  = (Throws (Error (VString "must supply a valid mixin value")), started).
Proof. vm_compute; reflexivity. Qed.

(** The check is [parseInt]: a mixin that starts with digits passes as the
    number they spell. *)
Example randomOutputs_leading_digits :
  body <$> sent (snd (invoke (answering VNull) client
                        (Call_randomOutputs (VArray [VNumber 100])
                           (VString "12abc")) started))
  = [Some (VObject [("amounts", VArray [VNumber 100]);
                    ("outs_count", VNumber 12)])].
Proof. vm_compute; reflexivity. Qed.

(** White space of more than one byte is skipped like the rest: a no-break
    space (U+00A0, the bytes C2 A0) in front of the digit. *)
Example randomOutputs_no_break_space :
  body <$> sent (snd (invoke (answering VNull) client
                        (Call_randomOutputs (VArray [VNumber 100])
                           (VString (String "194" (String "160" "5"))))
                        started))
  = [Some (VObject [("amounts", VArray [VNumber 100]);
                    ("outs_count", VNumber 5)])].
Proof. vm_compute; reflexivity. Qed.

(** ** The JSON-RPC envelope *)

Section Envelope.

Context (env : Platform) (this : loc).

(** What [_post] sends and how the reply settles its promise. *)
Lemma _post_settles name params w :
  name ≠ "" →
  _post env this name params w
  = let r := options this POST "json_rpc"
               (Some (VObject [("jsonrpc", VString "2.0");
                               ("method", VString name);
                               ("params", or_else params (VObject []))])) w in
    (match daemon env r with
     | Raised e => Throws e
     | NetworkError e => Rejects (TransportError e)
     | Parsed response =>
         match _post_then response with
         | Normal v => Resolves v
         | Abrupt e => Rejects e
         end
     end,
     {| heap := heap w; sent := sent w ++ [r] |}).
Proof.
  intros Hn. unfold _post. destruct (String.eqb_spec name ""); [done|].
  unfold then_. rewrite _rawPost_sends by done. unfold request; cbn zeta.
  by destruct (daemon env _).
Qed.

Lemma _post_then_object o :
  _post_then (VObject o)
  = if truthy (field "error" o)
    then Abrupt (Error (prop (field "error" o) "message"))
    else Normal (field "result" o).
Proof.
  unfold _post_then; simpl. by destruct (field "error" o) as [| |[]|n|s|xs|e| |[]].
Qed.


End Envelope.



(** ** Status-checked replies *)

Lemma toLowerCase_ok_nonempty s : toLowerCase s = "ok" → truthy (VString s) = true.
Proof. by destruct s. Qed.

Lemma globalIndexes_then_ok o s :
  field "status" o = VString s → toLowerCase s = "ok" →
  globalIndexes_then (VObject o) = Normal (field "o_indexes" o).
Proof. intros Hs Hok. unfold globalIndexes_then; simpl. by rewrite Hs; simpl; rewrite Hok. Qed.

Lemma globalIndexes_then_failed o :
  field "status" o = VString "failed" →
  globalIndexes_then (VObject o)
  = Abrupt (Error (VString "Transaction not found")).
Proof. intros Hs. unfold globalIndexes_then; simpl. by rewrite Hs. Qed.

(** Without a [status] the callback of [globalIndexes] calls [toLowerCase]
    on [undefined]. *)
Lemma globalIndexes_then_missing o :
  own "status" o = None → globalIndexes_then (VObject o) = Abrupt TypeError.
Proof.
  intros Hs. unfold globalIndexes_then; simpl. by rewrite (field_absent _ _ Hs).
Qed.

Lemma globalIndexesForRange_then_ok o s :
  field "status" o = VString s → toLowerCase s = "ok" →
  truthy (field "indexes" o) = true →
  globalIndexesForRange_then (VObject o) = Normal (field "indexes" o).
Proof.
  intros Hs Hok Hi. unfold globalIndexesForRange_then; simpl.
  rewrite Hs, Hi, (toLowerCase_ok_nonempty s Hok); simpl. by rewrite Hok.
Qed.

Lemma globalIndexesForRange_then_failed o :
  field "status" o = VString "failed" →
  globalIndexesForRange_then (VObject o)
  = Abrupt (Error (VString (if truthy (field "indexes" o)
                            then "Status is not OK"
                            else "Missing indexes or status key"))).
Proof.
  intros Hs. unfold globalIndexesForRange_then; simpl. rewrite Hs; simpl.
  by destruct (truthy (field "indexes" o)).
Qed.

Lemma globalIndexesForRange_then_missing o :
  own "status" o = None →
  globalIndexesForRange_then (VObject o)
  = Abrupt (Error (VString "Missing indexes or status key")).
Proof.
  intros Hs. unfold globalIndexesForRange_then; simpl. by rewrite (field_absent _ _ Hs).
Qed.

Lemma transactionsStatus_then_ok o s :
  field "status" o = VString s → toLowerCase s = "ok" →
  truthy (field "transactionsInPool" o) = true →
  truthy (field "transactionsInBlock" o) = true →
  truthy (field "transactionsUnknown" o) = true →
  transactionsStatus_then (VObject o)
  = Normal (VObject [("transactionsInPool", field "transactionsInPool" o);
                     ("transactionsInBlock", field "transactionsInBlock" o);
                     ("transactionsUnknown", field "transactionsUnknown" o)]).
Proof.
  intros Hs Hok H1 H2 H3. unfold transactionsStatus_then; simpl.
  rewrite Hs, H1, H2, H3, (toLowerCase_ok_nonempty s Hok); simpl. by rewrite Hok.
Qed.

Lemma transactionsStatus_then_failed o :
  field "status" o = VString "failed" →
  ∃ message,
    transactionsStatus_then (VObject o) = Abrupt (Error (VString message))
    ∧ message ∈ ["Missing status of transactions key"; "Status is not OK"].
Proof.
  intros Hs. unfold transactionsStatus_then; simpl. rewrite Hs; simpl.
  destruct (_ || _); eexists; (split; [reflexivity|]); set_solver.
Qed.

Lemma transactionsStatus_then_missing o :
  own "status" o = None →
  transactionsStatus_then (VObject o)
  = Abrupt (Error (VString "Missing status of transactions key")).
Proof.
  intros Hs. unfold transactionsStatus_then; simpl. by rewrite (field_absent _ _ Hs).
Qed.

Lemma walletSyncData_then_ok o s :
  field "status" o = VString s → toLowerCase s = "ok" →
  truthy (field "items" o) = true →
  walletSyncData_then (VObject o) = Normal (VObject o).
Proof.
  intros Hs Hok Hi. unfold walletSyncData_then; simpl.
  rewrite Hs, Hi, (toLowerCase_ok_nonempty s Hok); simpl. by rewrite Hok.
Qed.

Lemma walletSyncData_then_failed o :
  field "status" o = VString "failed" →
  walletSyncData_then (VObject o)
  = Abrupt (Error (VString (if truthy (field "items" o)
                            then "Status is not OK"
                            else "Missing items or status key"))).
Proof.
  intros Hs. unfold walletSyncData_then; simpl. rewrite Hs; simpl.
  by destruct (truthy (field "items" o)).
Qed.

Lemma walletSyncData_then_missing o :
  own "status" o = None →
  walletSyncData_then (VObject o)
  = Abrupt (Error (VString "Missing items or status key")).
Proof.
  intros Hs. unfold walletSyncData_then; simpl. by rewrite (field_absent _ _ Hs).
Qed.

(** The end-to-end replies of the specification. *)
Example globalIndexes_OK :
  fst (globalIndexes
         (answering (VObject [("status", VString "OK");
                              ("o_indexes", VArray [VNumber 1; VNumber 2; VNumber 3])]))
         client sampleHash started)
  = Resolves (VArray [VNumber 1; VNumber 2; VNumber 3]).
Proof. vm_compute; reflexivity. Qed.

Example globalIndexes_failed :
  fst (globalIndexes (answering (VObject [("status", VString "failed")]))
         client sampleHash started)
  = Rejects (Error (VString "Transaction not found")).
Proof. vm_compute; reflexivity. Qed.

(** C1, where the code departs from it.  [globalIndexes] answered by a reply
    that has no [status] member does not fail with a message of its rule:
    the promise is rejected with the TypeError of calling [toLowerCase] on
    [undefined].  The three other status-checked methods test the member
    first and reject with their own "Missing ... key" message. *)
Theorem globalIndexes_missing_status_TypeError :
  prop statuslessIndexes "status" = VUndefined
  ∧ fst (globalIndexes (answering statuslessIndexes) client sampleHash started)
    = Rejects TypeError
  ∧ fst (globalIndexesForRange (answering (VObject [("indexes", VArray [])]))
           client (VNumber 1) (VNumber 2) started)
    = Rejects (Error (VString "Missing indexes or status key"))
  ∧ fst (transactionsStatus (answering (VObject [("transactionsInPool", VArray [])]))
           client (VArray [sampleHash]) started)
    = Rejects (Error (VString "Missing status of transactions key"))
  ∧ fst (walletSyncData (answering (VObject [("items", VArray [])]))
           client None started)
    = Rejects (Error (VString "Missing items or status key")).
Proof. vm_compute. repeat split; reflexivity. Qed.

(** ** Field extraction *)

Section Extraction.

Context (env : Platform) (this : loc).

(** What [blockHeaderByHash] resolves to is the [block_head] member of the
    result. *)
Lemma blockHeaderByHash_resolves hash w o result :
  truthy hash = true →
  daemon env (options this POST "json_rpc"
                (Some (VObject [("jsonrpc", VString "2.0");
                                ("method", VString "getblockheaderbyhash");
                                ("params", VObject [("hash", hash)])])) w)
  = Parsed (VObject o) →
  truthy (field "error" o) = false →
  field "result" o = VObject result →
  fst (blockHeaderByHash env this hash w) = Resolves (field "block_head" result).
Proof.
  intros Hh Hd He Hr. unfold blockHeaderByHash. rewrite Hh; cbn [negb].
  unfold then_. rewrite _post_settles by done. cbn zeta.
  unfold or_else; cbn [truthy]. rewrite Hd, _post_then_object, He, Hr. done.
Qed.

Lemma blockHeaderByHeight_resolves height w o result :
  isUndefined height = false →
  daemon env (options this POST "json_rpc"
                (Some (VObject [("jsonrpc", VString "2.0");
                                ("method", VString "getblockheaderbyheight");
                                ("params", VObject [("height", height)])])) w)
  = Parsed (VObject o) →
  truthy (field "error" o) = false →
  field "result" o = VObject result →
  fst (blockHeaderByHeight env this height w)
  = Resolves (field "block_header" result).
Proof.
  intros Hh Hd He Hr. unfold blockHeaderByHeight. rewrite Hh.
  unfold then_. rewrite _post_settles by done. cbn zeta.
  unfold or_else; cbn [truthy]. rewrite Hd, _post_then_object, He, Hr. done.
Qed.

End Extraction.

(** C2, where the code departs from it.  Answered with a result that holds a
    [block_header], [blockHeaderByHash] resolves to [undefined]: its callback
    reads [block_head].  [blockHeaderByHeight] and [lastBlockHeader] return
    the header of the same reply. *)
Theorem blockHeaderByHash_loses_header :
  prop headerResult "block_header" = sampleHeader
  ∧ fst (blockHeaderByHash (answering (envelope headerResult)) client
           sampleHash started)
    = Resolves VUndefined
  ∧ fst (blockHeaderByHeight (answering (envelope headerResult)) client
           (VNumber 5) started)
    = Resolves sampleHeader
  ∧ fst (lastBlockHeader (answering (envelope headerResult)) client started)
    = Resolves sampleHeader.
Proof. vm_compute. repeat split; reflexivity. Qed.

(** ** Loops that push one record per entry *)

Lemma bind_Normal {A B} (c : Completion A) (k : A → Completion B) r :
  (x ← c; k x) = Normal r → ∃ a, c = Normal a ∧ k a = Normal r.
Proof. destruct c as [a|e]; [by exists a | discriminate]. Qed.

Lemma getProp_Normal v k x : getProp v k = Normal x → x = prop v k.
Proof. destruct v; simpl; congruence. Qed.

Lemma getProp_object o k : getProp (VObject o) k = Normal (field k o).
Proof. done. Qed.

(** The record pushed for an entry pairs the values of its two dotted
    members. *)
Lemma pushTransaction_record txn y :
  pushTransaction txn [] = Normal [y] →
  y = VObject [("hash", prop txn "transactionPrefixInfo.txHash");
               ("prefix", prop txn "transactionPrefixInfo.txPrefix")].
Proof. destruct txn; simpl; intros H; try discriminate H; by injection H as <-. Qed.

Section BlocksLite.

Context (env : Platform).

(** The record pushed for a block. *)
Lemma pushBlock_record item ys :
  pushBlock env item [] = Normal ys →
  ∃ buf transactions,
    Buffer_from env (prop item "blockShortInfo.block") = Normal buf
    ∧ forEach (prop item "blockShortInfo.txPrefixes") pushTransaction []
      = Normal transactions
    ∧ ys = [VObject [("block", VString (toString_hex buf));
                     ("hash", prop item "blockShortInfo.blockId");
                     ("transactions", VArray transactions)]].
Proof.
  unfold pushBlock. intros H.
  apply bind_Normal in H as (p & Hp & H). apply getProp_Normal in Hp as ->.
  apply bind_Normal in H as (txs & Htxs & H).
  apply bind_Normal in H as (raw & Hraw & H). apply getProp_Normal in Hraw as ->.
  apply bind_Normal in H as (buf & Hbuf & H).
  apply bind_Normal in H as (hash & Hhash & H). apply getProp_Normal in Hhash as ->.
  injection H as <-. by exists buf, txs.
Qed.

End BlocksLite.

(** ** Array reshaping *)

Lemma map_lookup_Some {A B} (f : A → B) (xs : list A) i x :
  xs !! i = Some x → map f xs !! i = Some (f x).
Proof.
  revert i. induction xs as [|a xs IH]; intros [|i] H; try done.
  - cbn in H. by simplify_eq.
  - apply (IH i H).
Qed.

Lemma forallb_lookup {A} (p : A → bool) (xs : list A) i x :
  forallb p xs = true → xs !! i = Some x → p x = true.
Proof.
  revert i. induction xs as [|a xs IH]; intros [|i] Hall H; try done;
    cbn [forallb] in Hall; apply andb_true_iff in Hall as [Ha Hxs].
  - cbn in H. by simplify_eq.
  - apply (IH i Hxs H).
Qed.

Lemma pushTransaction_pairOf tx tmp :
  pushTransaction tx tmp
  = if hasMembers tx then Normal (tmp ++ [pairOf tx]) else Abrupt TypeError.
Proof. by destruct tx. Qed.

Lemma each_pushTransaction xs tmp :
  each pushTransaction xs tmp
  = if forallb hasMembers xs then Normal (tmp ++ map pairOf xs)
    else Abrupt TypeError.
Proof.
  revert tmp. induction xs as [|x xs IH]; intros tmp; cbn [each forallb map].
  - by rewrite app_nil_r.
  - rewrite pushTransaction_pairOf. destruct (hasMembers x); cbn; [|done].
    rewrite IH. by rewrite <- app_assoc.
Qed.

(** What the callback of [poolChanges] makes of a reply whose [addedTxs] is
    an array without [null] entries. *)
Lemma poolChanges_then_pairs o added :
  field "addedTxs" o = VArray added →
  forallb hasMembers added = true →
  poolChanges_then (VObject o)
  = Normal (VObject (assign "addedTxs" (VArray (map pairOf added)) o)).
Proof.
  intros Ha Hall. unfold poolChanges_then. cbn -[each assign field].
  rewrite Ha.
  change (forEach (VArray added) pushTransaction [])
    with (each pushTransaction added []).
  by rewrite each_pushTransaction, Hall.
Qed.

Section Reshaping.

Context (env : Platform) (this : loc).

Lemma toBytes_integers xs :
  forallb isInteger xs = true → toBytes env xs = Normal (bytesOf (VArray xs)).
Proof.
  induction xs as [|x xs IH]; [done|]. cbn [forallb].
  intros [Hx Hxs]%andb_true_iff. destruct x; try discriminate Hx.
  cbn [toBytes toNumber]. cbn -[Z.modulo]. rewrite (IH Hxs). done.
Qed.

Lemma pushBlock_reshapable item tmp :
  reshapable item = true →
  pushBlock env item tmp = Normal (tmp ++ [reshaped item]).
Proof.
  unfold reshapable, reshaped, pushBlock.
  destruct item as [| | | | | |o| |]; try discriminate.
  cbn [prop getProp mbind Completion_bind].
  destruct (field "blockShortInfo.txPrefixes" o) as [| | | | |txs| | |];
    try discriminate.
  destruct (field "blockShortInfo.block" o) as [| | | | |xs| | |]; try by rewrite ?andb_false_r.
  intros [Htxs Hxs]%andb_true_iff.
  change (forEach (VArray txs) pushTransaction [])
    with (each pushTransaction txs []).
  rewrite each_pushTransaction, Htxs. cbn [mbind Completion_bind app].
  cbn [Buffer_from]. by rewrite (toBytes_integers xs Hxs).
Qed.

Lemma each_pushBlock items tmp :
  forallb reshapable items = true →
  each (pushBlock env) items tmp = Normal (tmp ++ map reshaped items).
Proof.
  revert tmp. induction items as [|item items IH]; intros tmp; cbn [each forallb map].
  - by rewrite app_nil_r.
  - intros [Hi His]%andb_true_iff. rewrite (pushBlock_reshapable _ _ Hi).
    cbn [mbind Completion_bind]. rewrite (IH _ His). by rewrite <- app_assoc.
Qed.

(** What the callback of [blocksLite] makes of a reply whose [items] are of
    the shape the daemon sends. *)
Lemma blocksLite_then_reshaped o items :
  field "items" o = VArray items →
  forallb reshapable items = true →
  blocksLite_then env (VObject o)
  = Normal (VObject (assign "items" (VArray (map reshaped items)) o)).
Proof.
  intros Hi Hall. unfold blocksLite_then. cbn -[each assign field].
  rewrite Hi.
  change (forEach (VArray items) (pushBlock env) [])
    with (each (pushBlock env) items []).
  by rewrite (each_pushBlock _ _ Hall).
Qed.

(** [blocksLite] and [poolChanges] settle their promise with what their
    callback makes of the parsed reply. *)
Lemma blocksLite_parsed opts (w : World) r response :
  sent (snd (blocksLite env this opts w)) = sent w ++ [r] →
  daemon env r = Parsed response →
  fst (blocksLite env this opts w)
  = match blocksLite_then env response with
    | Normal v => Resolves v
    | Abrupt e => Rejects e
    end.
Proof.
  unfold blocksLite. pose proof (orNewObject_sent opts w) as Hs.
  destruct (orNewObject opts w) as [l w0]; cbn [snd] in Hs. cbn zeta.
  intros Hr Hd.
  destruct (negb (isArray _)); [by destruct (sent_throw_inv _ _ _ _ Hs Hr)|].
  destruct (isUndefined (load l "timestamp" w0));
    (eapply then_rawPost_parsed; [|exact Hr|exact Hd]; exact Hs).
Qed.

Lemma poolChanges_parsed tailBlockHash knownTransactionHashes (w : World) r
    response :
  sent (snd (poolChanges env this tailBlockHash knownTransactionHashes w))
  = sent w ++ [r] →
  daemon env r = Parsed response →
  fst (poolChanges env this tailBlockHash knownTransactionHashes w)
  = match poolChanges_then response with
    | Normal v => Resolves v
    | Abrupt e => Rejects e
    end.
Proof.
  unfold poolChanges. intros Hr Hd.
  destruct (isUndefined tailBlockHash);
    [by destruct (sent_throw_inv _ _ _ _ eq_refl Hr)|].
  destruct (negb (isArray _)); [by destruct (sent_throw_inv _ _ _ _ eq_refl Hr)|].
  eapply then_rawPost_parsed; [|exact Hr|exact Hd]. reflexivity.
Qed.

Lemma blocksLite_reshaped opts (w : World) r o items :
  sent (snd (blocksLite env this opts w)) = sent w ++ [r] →
  daemon env r = Parsed (VObject o) →
  field "items" o = VArray items →
  forallb reshapable items = true →
  fst (blocksLite env this opts w)
  = Resolves (VObject (assign "items" (VArray (map reshaped items)) o)).
Proof.
  intros Hr Hd Hi Hall.
  by rewrite (blocksLite_parsed _ _ _ _ Hr Hd), (blocksLite_then_reshaped _ _ Hi Hall).
Qed.

(** The transactions of a reshaped block. *)
Lemma reshaped_transactions item :
  reshapable item = true →
  ∃ txs,
    prop item "blockShortInfo.txPrefixes" = VArray txs
    ∧ prop (reshaped item) "transactions" = VArray (map pairOf txs).
Proof.
  unfold reshapable, reshaped. cbn [prop field own String.eqb Ascii.eqb Bool.eqb default].
  destruct (prop item "blockShortInfo.txPrefixes") as [| | | | |txs| | |];
    try discriminate.
  intros _. by exists txs.
Qed.


End Reshaping.


(** The whole call: [blocksLite] on a reply with that block. *)
Example blocksLite_liteResponse :
  fst (blocksLite (answering liteResponse) client (Some callerOpts)
         (withOpts [("blockHashes", VArray [sampleHash])]))
  = Resolves liteNormalized.
Proof. vm_compute; reflexivity. Qed.

(** ** Bytes to hexadecimal *)

Lemma lowerHexValue_hexDigit n :
  (0 ≤ n < 16)%Z → lowerHexValue (hexDigit n) = Some n.
Proof.
  intros Hn.
  assert (n = 0 ∨ n = 1 ∨ n = 2 ∨ n = 3 ∨ n = 4 ∨ n = 5 ∨ n = 6 ∨ n = 7
          ∨ n = 8 ∨ n = 9 ∨ n = 10 ∨ n = 11 ∨ n = 12 ∨ n = 13 ∨ n = 14
          ∨ n = 15)%Z as Hcases by lia.
  destruct_or!; subst n; reflexivity.
Qed.

Lemma fromHex_pair hi lo s :
  fromHex (String hi (String lo s))
  = h ← lowerHexValue hi; l ← lowerHexValue lo; bs ← fromHex s;
    Some ((16 * h + l)%Z :: bs).
Proof. done. Qed.

Lemma fromHex_byteToHex b s :
  (0 ≤ b < 256)%Z →
  fromHex (byteToHex b +:+ s) = bs ← fromHex s; Some (b :: bs).
Proof.
  intros Hb.
  change (byteToHex b +:+ s)
    with (String (hexDigit (b / 16)) (String (hexDigit (b mod 16)) s)).
  rewrite fromHex_pair, !lowerHexValue_hexDigit.
  - simpl. destruct (fromHex s); [|done]. simpl.
    do 2 f_equal. pose proof (Z.div_mod b 16). lia.
  - split; [apply Z.div_pos; lia | apply Z.div_lt_upper_bound; lia].
  - apply Z.mod_pos_bound. lia.
Qed.

(** Reading the digits back gives the bytes. *)
Lemma fromHex_toString_hex bytes :
  Forall (fun b => 0 ≤ b < 256)%Z bytes →
  fromHex (toString_hex bytes) = Some bytes.
Proof.
  induction 1 as [|b bytes Hb _ IH]; [done|].
  cbn [toString_hex foldr]. rewrite fromHex_byteToHex by done.
  fold (toString_hex bytes). by rewrite IH.
Qed.

Lemma length_toString_hex bytes :
  String.length (toString_hex bytes) = 2 * length bytes.
Proof.
  induction bytes as [|b bytes IH]; [done|].
  change (toString_hex (b :: bytes))
    with (String (hexDigit (b / 16))
            (String (hexDigit (b mod 16)) (toString_hex bytes))).
  cbn [String.length length]. lia.
Qed.

(** The bytes of an array of integers: each is the entry modulo 256, which
    for an entry that is a byte is the entry. *)
Lemma bytesOf_integers ns :
  bytesOf (VArray (map VNumber ns)) = map (fun n => n mod 256)%Z ns.
Proof. cbn [bytesOf]. by rewrite map_map. Qed.

Lemma bytesOf_bytes bytes :
  Forall (fun b => 0 ≤ b < 256)%Z bytes →
  bytesOf (VArray (map VNumber bytes)) = bytes.
Proof.
  intros Hb. rewrite bytesOf_integers.
  induction Hb as [|b bytes Hb _ IH]; [done|].
  cbn [map]. rewrite IH. f_equal. by apply Z.mod_small.
Qed.

Lemma Forall_byte ns :
  Forall (fun b => 0 ≤ b < 256)%Z (map (fun n => n mod 256)%Z ns).
Proof.
  induction ns as [|n ns IH]; constructor; [|exact IH].
  apply Z.mod_pos_bound. lia.
Qed.

Section Hexadecimal.

Context (env : Platform) (this : loc).

(** C5.  When the daemon answers [blocksLite] with a reply whose [items] are
    blocks of the shape it sends, the call resolves with the reply in which
    each item has become a record whose [block] is the hexadecimal string of
    the item's [blockShortInfo.block]: for an array of bytes, a string of
    the digits [0-9a-f], two per byte, that reads back as those bytes in
    their order ([fromHex] accepts no other digit); for the bytes
    [0, 255, 16] it is ["00ff10"]. *)
Theorem block_bytes_become_lowercase_hex opts (w : World) r o items :
  sent (snd (blocksLite env this opts w)) = sent w ++ [r] →
  daemon env r = Parsed (VObject o) →
  field "items" o = VArray items →
  forallb reshapable items = true →
  ∃ outs,
    fst (blocksLite env this opts w)
    = Resolves (VObject (assign "items" (VArray outs) o))
    ∧ ∀ i item bytes,
        items !! i = Some item →
        prop item "blockShortInfo.block" = VArray (map VNumber bytes) →
        Forall (fun b => 0 ≤ b < 256)%Z bytes →
        ∃ y s,
          outs !! i = Some y
          ∧ prop y "block" = VString s
          ∧ fromHex s = Some bytes
          ∧ String.length s = 2 * length bytes
          ∧ (bytes = [0; 255; 16]%Z → s = "00ff10").
Proof.
  intros Hr Hd Hi Hall. exists (map reshaped items).
  split; [by apply (blocksLite_reshaped env this _ _ r)|].
  intros i item bytes Hitem Hblock Hb.
  exists (reshaped item), (toString_hex bytes).
  split; [by apply map_lookup_Some|].
  split; [unfold reshaped; rewrite Hblock, (bytesOf_bytes _ Hb); reflexivity|].
  split; [by apply fromHex_toString_hex|].
  split; [apply length_toString_hex|]. by intros ->.
Qed.

End Hexadecimal.

Lemma block_bytes_become_lowercase_hex_witness :
  sent (snd (blocksLite (answering liteResponse) client (Some callerOpts)
               (withOpts hashesOnly)))
  = sent (withOpts hashesOnly) ++ [liteRequest]
  ∧ daemon (answering liteResponse) liteRequest = Parsed liteResponse
  ∧ prop liteResponse "items" = VArray [liteItem]
  ∧ forallb reshapable [liteItem] = true
  ∧ [liteItem] !! 0 = Some liteItem
  ∧ prop liteItem "blockShortInfo.block" = VArray (map VNumber [0; 255; 16]%Z)
  ∧ Forall (fun b => 0 ≤ b < 256)%Z [0; 255; 16]%Z
  ∧ ∃ outs y,
      fst (blocksLite (answering liteResponse) client (Some callerOpts)
             (withOpts hashesOnly))
      = Resolves (VObject (assign "items" (VArray outs)
                             [("currentHeight", VNumber 10);
                              ("items", VArray [liteItem]);
                              ("status", VString "OK")]))
      ∧ outs !! 0 = Some y
      ∧ prop y "block" = VString "00ff10".
Proof.
  assert (Forall (fun b => 0 ≤ b < 256)%Z [0; 255; 16]%Z) as Hb
    by (repeat constructor; lia).
  repeat (split; [reflexivity|]). split; [exact Hb|].
  destruct (block_bytes_become_lowercase_hex (answering liteResponse) client
              (Some callerOpts) (withOpts hashesOnly) liteRequest
              [("currentHeight", VNumber 10); ("items", VArray [liteItem]);
               ("status", VString "OK")]
              [liteItem] eq_refl eq_refl eq_refl eq_refl)
    as (outs & Hres & Hblocks).
  destruct (Hblocks 0 liteItem [0; 255; 16]%Z eq_refl eq_refl Hb)
    as (y & s & Hy & Hs & _ & _ & H00).
  exists outs, y. split; [exact Hres|]. split; [exact Hy|].
  by rewrite Hs, (H00 eq_refl).
Defined.

(** ** Dotted member names *)

Section Renaming.

Context (env : Platform) (this : loc).

Lemma rawBlocks_parsed blockHashes blockCount (w : World) r response :
  sent (snd (rawBlocks env this blockHashes blockCount w)) = sent w ++ [r] →
  daemon env r = Parsed response →
  fst (rawBlocks env this blockHashes blockCount w)
  = match rawBlocks_then response with
    | Normal v => Resolves v
    | Abrupt e => Rejects e
    end.
Proof.
  unfold rawBlocks. intros Hr Hd.
  destruct (negb (isArray _)); [by destruct (sent_throw_inv _ _ _ _ eq_refl Hr)|].
  destruct (negb (truthy _));
    [eapply then_rawPost_parsed; [|exact Hr|exact Hd]; reflexivity|].
  destruct (toNumber env blockCount) as [[|n|negative]|e];
    first [ by destruct (sent_throw_inv _ _ _ _ eq_refl Hr)
          | by destruct (sent_same_inv _ _ _ eq_refl Hr)
          | eapply then_rawPost_parsed; [|exact Hr|exact Hd]; reflexivity ].
Qed.

Lemma rawBlocks_then_Normal response out :
  rawBlocks_then response = Normal out →
  out = VObject [("blocks", prop response "response.blocks");
                 ("current_height", prop response "response.current_height");
                 ("start_height", prop response "response.start_height");
                 ("status", prop response "response.status")].
Proof. destruct response; simpl; intros H; try discriminate H; by injection H as <-. Qed.

(** C6, as the code has it.  The records the three rewriting rules build
    have the plain names as their only members, so no dotted name is left in
    them.  [rawBlocks] gives [blocks], [current_height], [start_height] and
    [status] the values of the four [response.*] members; the transaction
    records of [poolChanges] and [blocksLite] give [hash] and [prefix] the
    values of [transactionPrefixInfo.txHash] and
    [transactionPrefixInfo.txPrefix]; the block records of [blocksLite] give
    [hash] the value of [blockShortInfo.blockId], while [block] is the
    hexadecimal string of the bytes of [blockShortInfo.block] and
    [transactions] the reshaped [blockShortInfo.txPrefixes], not those values
    themselves.  These records are what the three methods resolve with when
    the daemon has answered: [rawBlocks] with the record of the reply,
    [poolChanges] with the reply whose [addedTxs] holds the record of each
    entry, [blocksLite] with the reply whose [items] holds the record of
    each block. *)
Theorem dotted_names_become_plain_names :
  (∀ response out,
     rawBlocks_then response = Normal out →
     ∃ o, out = VObject o
          ∧ keys o = ["blocks"; "current_height"; "start_height"; "status"]
          ∧ field "blocks" o = prop response "response.blocks"
          ∧ field "current_height" o = prop response "response.current_height"
          ∧ field "start_height" o = prop response "response.start_height"
          ∧ field "status" o = prop response "response.status")
  ∧ (∀ txn y,
       pushTransaction txn [] = Normal [y] →
       ∃ o, y = VObject o
            ∧ keys o = ["hash"; "prefix"]
            ∧ field "hash" o = prop txn "transactionPrefixInfo.txHash"
            ∧ field "prefix" o = prop txn "transactionPrefixInfo.txPrefix")
  ∧ (∀ item y,
       pushBlock env item [] = Normal [y] →
       ∃ o buf transactions,
         y = VObject o
         ∧ keys o = ["block"; "hash"; "transactions"]
         ∧ field "hash" o = prop item "blockShortInfo.blockId"
         ∧ Buffer_from env (prop item "blockShortInfo.block") = Normal buf
         ∧ field "block" o = VString (toString_hex buf)
         ∧ forEach (prop item "blockShortInfo.txPrefixes") pushTransaction []
           = Normal transactions
         ∧ field "transactions" o = VArray transactions)
  ∧ (∀ blockHashes blockCount (w : World) r response,
       sent (snd (rawBlocks env this blockHashes blockCount w)) = sent w ++ [r] →
       daemon env r = Parsed response →
       hasMembers response = true →
       ∃ o,
         fst (rawBlocks env this blockHashes blockCount w) = Resolves (VObject o)
         ∧ keys o = ["blocks"; "current_height"; "start_height"; "status"]
         ∧ field "blocks" o = prop response "response.blocks"
         ∧ field "current_height" o = prop response "response.current_height"
         ∧ field "start_height" o = prop response "response.start_height"
         ∧ field "status" o = prop response "response.status")
  ∧ (∀ tailBlockHash knownTransactionHashes (w : World) r reply added,
       sent (snd (poolChanges env this tailBlockHash knownTransactionHashes w))
       = sent w ++ [r] →
       daemon env r = Parsed (VObject reply) →
       field "addedTxs" reply = VArray added →
       forallb hasMembers added = true →
       ∃ outs,
         fst (poolChanges env this tailBlockHash knownTransactionHashes w)
         = Resolves (VObject (assign "addedTxs" (VArray outs) reply))
         ∧ ∀ i tx, added !! i = Some tx →
             ∃ o, outs !! i = Some (VObject o)
                  ∧ keys o = ["hash"; "prefix"]
                  ∧ field "hash" o = prop tx "transactionPrefixInfo.txHash"
                  ∧ field "prefix" o = prop tx "transactionPrefixInfo.txPrefix")
  ∧ (∀ opts (w : World) r reply items,
       sent (snd (blocksLite env this opts w)) = sent w ++ [r] →
       daemon env r = Parsed (VObject reply) →
       field "items" reply = VArray items →
       forallb reshapable items = true →
       ∃ outs,
         fst (blocksLite env this opts w)
         = Resolves (VObject (assign "items" (VArray outs) reply))
         ∧ ∀ i item, items !! i = Some item →
             ∃ o txs,
               outs !! i = Some (VObject o)
               ∧ keys o = ["block"; "hash"; "transactions"]
               ∧ field "hash" o = prop item "blockShortInfo.blockId"
               ∧ field "block" o
                 = VString (toString_hex
                              (bytesOf (prop item "blockShortInfo.block")))
               ∧ prop item "blockShortInfo.txPrefixes" = VArray txs
               ∧ field "transactions" o = VArray (map pairOf txs)).
Proof.
  split; [|split; [|split; [|split; [|split]]]].
  - intros response out H. apply rawBlocks_then_Normal in H as ->.
    eexists. split; [reflexivity|]. by repeat split.
  - intros txn y H. apply pushTransaction_record in H as ->.
    eexists. split; [reflexivity|]. by repeat split.
  - intros item y H. apply pushBlock_record in H as (buf & txs & Hbuf & Htxs & Hy).
    injection Hy as ->. eexists _, buf, txs. split; [reflexivity|].
    by repeat split.
  - intros blockHashes blockCount w r response Hr Hd Hm.
    rewrite (rawBlocks_parsed _ _ _ _ _ Hr Hd).
    destruct response; try discriminate Hm;
      (eexists; split; [reflexivity|]; by repeat split).
  - intros tail known w r reply added Hr Hd Ha Hall.
    exists (map pairOf added). split.
    + by rewrite (poolChanges_parsed env this _ _ _ _ _ Hr Hd),
        (poolChanges_then_pairs _ _ Ha Hall).
    + intros i tx Htx. eexists. split; [by apply (map_lookup_Some pairOf)|].
      by repeat split.
  - intros opts w r reply items Hr Hd Hi Hall. exists (map reshaped items).
    split; [by apply (blocksLite_reshaped env this _ _ r)|].
    intros i item Hitem.
    destruct (reshaped_transactions item (forallb_lookup _ _ _ _ Hall Hitem))
      as (txs & Htxs & Hpairs).
    eexists _, txs. split; [by apply (map_lookup_Some reshaped)|].
    split; [reflexivity|]. split; [reflexivity|]. split; [reflexivity|].
    split; [exact Htxs|]. exact Hpairs.
Qed.

End Renaming.

Lemma dotted_names_become_plain_names_witness :
  (rawBlocks_then rawResponse
   = Normal (VObject [("blocks", VArray []);
                      ("current_height", VNumber 12);
                      ("start_height", VNumber 11);
                      ("status", VString "OK")])
   ∧ ∃ o, VObject [("blocks", VArray []);
                   ("current_height", VNumber 12);
                   ("start_height", VNumber 11);
                   ("status", VString "OK")] = VObject o
          ∧ keys o = ["blocks"; "current_height"; "start_height"; "status"]
          ∧ field "blocks" o = prop rawResponse "response.blocks"
          ∧ field "current_height" o = prop rawResponse "response.current_height"
          ∧ field "start_height" o = prop rawResponse "response.start_height"
          ∧ field "status" o = prop rawResponse "response.status")
  ∧ (pushBlock (answering VNull) liteItem [] = Normal [liteBlock]
     ∧ ∃ o buf transactions,
         liteBlock = VObject o
         ∧ keys o = ["block"; "hash"; "transactions"]
         ∧ field "hash" o = prop liteItem "blockShortInfo.blockId"
         ∧ Buffer_from (answering VNull) (prop liteItem "blockShortInfo.block")
           = Normal buf
         ∧ field "block" o = VString (toString_hex buf)
         ∧ forEach (prop liteItem "blockShortInfo.txPrefixes") pushTransaction []
           = Normal transactions
         ∧ field "transactions" o = VArray transactions).
Proof.
  split.
  - split; [reflexivity|].
    exact (proj1 (dotted_names_become_plain_names (answering VNull) client)
             rawResponse _ eq_refl).
  - split; [reflexivity|].
    exact (proj1 (proj2 (proj2 (dotted_names_become_plain_names
                                  (answering VNull) client)))
             liteItem liteBlock eq_refl).
Defined.

(** The value [blocksLite] exposes under [block] is not the value the reply
    has under [blockShortInfo.block]: the reply has an array of numbers, the
    result a string. *)
Lemma blocksLite_block_is_not_the_same_value :
  prop liteItem "blockShortInfo.block"
  = VArray [VNumber 0; VNumber 255; VNumber 16]
  ∧ fst (blocksLite (answering liteResponse) client (Some callerOpts)
           (withOpts [("blockHashes", VArray [sampleHash])]))
    = Resolves liteNormalized
  ∧ prop liteNormalized "items" = VArray [liteBlock]
  ∧ prop liteBlock "block" = VString "00ff10"
  ∧ prop liteBlock "block" ≠ prop liteItem "blockShortInfo.block".
Proof. vm_compute. repeat split; try reflexivity. discriminate. Qed.

(** ** The empty member name *)

Section EmptyName.

Context (env : Platform) (this : loc).

Lemma transaction_then_object o :
  transaction_then (VObject o)
  = Normal (match field "tx" o with
            | VObject t =>
                if truthy (field "" t)
                then VObject (assign "tx" (VObject (remove "" t)) o)
                else VObject o
            | _ => VObject o
            end).
Proof.
  unfold transaction_then; simpl.
  destruct (field "tx" o) as [| |[]|n|s|xs|t| |[]]; simpl; try done.
  - by destruct (n =? 0)%Z.
  - by destruct (String.eqb s "").
  - by destruct (truthy (field "" t)).
Qed.

Lemma transaction_resolves hash w e o :
  truthy hash = true →
  daemon env (options this POST "json_rpc"
                (Some (VObject [("jsonrpc", VString "2.0");
                                ("method", VString "f_transaction_json");
                                ("params", VObject [("hash", hash)])])) w)
  = Parsed (VObject e) →
  truthy (field "error" e) = false →
  field "result" e = VObject o →
  fst (transaction env this hash w)
  = match transaction_then (VObject o) with
    | Normal v => Resolves v
    | Abrupt failure => Rejects failure
    end.
Proof.
  intros Hh Hd He Hr. unfold transaction. rewrite Hh; cbn [negb].
  unfold then_. rewrite _post_settles by done. cbn zeta.
  unfold or_else; cbn [truthy]. rewrite Hd, _post_then_object, He, Hr.
  by destruct (transaction_then (VObject o)).
Qed.

(** What [transaction] does with the empty name.  For a call that the
    daemon answers with a result object: when [tx] is an object whose [""]
    member is truthy, the call resolves with the result in which [tx] has
    lost that member and nothing else has changed, neither the other members
    of [tx] nor the other members of the result nor their order; in every
    other case (no [tx], no [""] member in it, or a [""] member that is
    falsy) the call resolves with the result as it came. *)
Lemma transaction_drops_truthy_empty_name hash w e o :
  truthy hash = true →
  daemon env (options this POST "json_rpc"
                (Some (VObject [("jsonrpc", VString "2.0");
                                ("method", VString "f_transaction_json");
                                ("params", VObject [("hash", hash)])])) w)
  = Parsed (VObject e) →
  truthy (field "error" e) = false →
  field "result" e = VObject o →
  (∀ t, own "tx" o = Some (VObject t) → truthy (field "" t) = true →
     ∃ o' t',
       fst (transaction env this hash w) = Resolves (VObject o')
       ∧ own "tx" o' = Some (VObject t')
       ∧ own "" t' = None
       ∧ (∀ k, k ≠ "" → own k t' = own k t)
       ∧ (∀ k, k ≠ "tx" → own k o' = own k o)
       ∧ keys o' = keys o)
  ∧ (truthy (prop (field "tx" o) "") = false →
     fst (transaction env this hash w) = Resolves (VObject o)).
Proof.
  intros Hh Hd He Hr.
  rewrite (transaction_resolves hash w e o Hh Hd He Hr).
  rewrite transaction_then_object. split.
  - intros t Htx Hempty. unfold field at 1. rewrite Htx; simpl. rewrite Hempty.
    exists (assign "tx" (VObject (remove "" t)) o), (remove "" t).
    split; [done|]. split; [apply own_assign_eq|].
    split; [apply own_remove_eq|]. split; [intros k Hk; by apply own_remove_ne|].
    split; [intros k Hk; by apply own_assign_ne|].
    by eapply keys_assign_present.
  - intros Hfalsy. destruct (field "tx" o) as [| | | | | |t| |]; try done.
    simpl in Hfalsy. by rewrite Hfalsy.
Qed.

End EmptyName.

Lemma transaction_drops_truthy_empty_name_witness :
  truthy sampleHash = true
  ∧ daemon (answering (envelope (VObject signedResult)))
      (options client POST "json_rpc"
         (Some (VObject [("jsonrpc", VString "2.0");
                         ("method", VString "f_transaction_json");
                         ("params", VObject [("hash", sampleHash)])])) started)
    = Parsed (envelope (VObject signedResult))
  ∧ truthy (prop (envelope (VObject signedResult)) "error") = false
  ∧ prop (envelope (VObject signedResult)) "result" = VObject signedResult
  ∧ own "tx" signedResult = Some (VObject signedTx)
  ∧ truthy (field "" signedTx) = true
  ∧ ∃ o' t',
      fst (transaction (answering (envelope (VObject signedResult))) client
             sampleHash started) = Resolves (VObject o')
      ∧ own "tx" o' = Some (VObject t')
      ∧ own "" t' = None
      ∧ (∀ k, k ≠ "" → own k t' = own k signedTx)
      ∧ (∀ k, k ≠ "tx" → own k o' = own k signedResult)
      ∧ keys o' = keys signedResult.
Proof.
  repeat (split; [reflexivity|]).
  exact (proj1 (transaction_drops_truthy_empty_name
                  (answering (envelope (VObject signedResult))) client
                  sampleHash started
                  [("jsonrpc", VString "2.0"); ("id", VNull);
                   ("result", VObject signedResult)]
                  signedResult eq_refl eq_refl eq_refl eq_refl)
           signedTx eq_refl eq_refl).
Defined.

(** C8, where the code departs from it.  The guard of the deletion,
    [response.tx && response.tx['']], tests the value under the empty name,
    not its presence.  A [tx] that has the
    empty name with the empty string under it therefore keeps it: the call
    resolves with the result as it came, [""] included, where the rule sets
    out to delete the member. *)
Theorem transaction_keeps_falsy_empty_name :
  own "" unsignedTx = Some (VString "")
  ∧ fst (transaction (answering (envelope (VObject unsignedResult))) client
           sampleHash started)
    = Resolves (VObject unsignedResult)
  ∧ prop (VObject unsignedResult) "tx" = VObject unsignedTx
  ∧ own "" unsignedTx ≠ None.
Proof. vm_compute. repeat split; try reflexivity. discriminate. Qed.

(** ** Defaults written into the caller's options *)

Section Defaults.

Context (env : Platform) (this : loc).

Lemma load_Some (l : loc) k (w : World) (o : Obj) :
  heap w !! l = Some o → load l k w = field k o.
Proof. intros H. unfold load. by rewrite H. Qed.

Lemma lookup_store (l : loc) k v (w : World) (o : Obj) :
  heap w !! l = Some o → heap (store l k v w) !! l = Some (assign k v o).
Proof. intros H. unfold store; cbn [heap]. by rewrite lookup_insert_eq, H. Qed.

(** One step [if (absent(opts.k)) opts.k = v]. *)
Lemma default_step (absent : JsVal → bool) (l : loc) k v (w : World) (o : Obj) :
  heap w !! l = Some o →
  absent VUndefined = true →
  ∃ o',
    heap (if absent (load l k w) then store l k v w else w) !! l = Some o'
    ∧ sent (if absent (load l k w) then store l k v w else w) = sent w
    ∧ (own k o = None → own k o' = Some v)
    ∧ (absent (field k o) = false → o' = o)
    ∧ (∀ k', k' ≠ k → own k' o' = own k' o).
Proof.
  intros Hl Hu. rewrite (load_Some _ _ _ _ Hl).
  destruct (absent (field k o)) eqn:Ha.
  - exists (assign k v o). split; [by apply lookup_store|]. split; [done|].
    split; [intros _; apply own_assign_eq|]. split; [done|].
    intros k' Hk. by apply own_assign_ne.
  - exists o. repeat split; try done.
    intros Hk. rewrite (field_absent _ _ Hk) in Ha. congruence.
Qed.



Lemma walletSyncData_defaults (l : loc) (o : Obj) (w : World) :
  heap w !! l = Some o →
  ∃ o' r,
    heap (snd (walletSyncData env this (Some l) w)) !! l = Some o'
    ∧ sent (snd (walletSyncData env this (Some l) w)) = sent w ++ [r]
    ∧ (own "startHeight" o = None → own "startHeight" o' = Some (VNumber 0))
    ∧ (own "startTimestamp" o = None
       → own "startTimestamp" o' = Some (VNumber 0))
    ∧ (own "blockHashCheckpoints" o = None
       → own "blockHashCheckpoints" o' = Some (VArray []))
    ∧ (own "skipCoinbaseTransactions" o = None
       → own "skipCoinbaseTransactions" o' = Some (VBool false))
    ∧ (∀ k, k ∉ ["startHeight"; "startTimestamp"; "blockHashCheckpoints";
                 "skipCoinbaseTransactions"] → own k o' = own k o)
    ∧ body r = Some (VObject
                       [("startHeight", field "startHeight" o');
                        ("startTimestamp", field "startTimestamp" o');
                        ("blockHashCheckpoints", field "blockHashCheckpoints" o');
                        ("skipCoinbaseTransactions",
                         field "skipCoinbaseTransactions" o')]).
Proof.
  intros Hl. unfold walletSyncData. cbn [orNewObject].
  destruct (default_step isUndefined l "startHeight" (VNumber 0) w o Hl eq_refl)
    as (o1 & Hl1 & Hs1 & Hd1 & _ & Hk1).
  set (w1 := if isUndefined (load l "startHeight" w) then _ else w) in *.
  destruct (default_step isUndefined l "startTimestamp" (VNumber 0) w1 o1 Hl1
              eq_refl) as (o2 & Hl2 & Hs2 & Hd2 & _ & Hk2).
  set (w2 := if isUndefined (load l "startTimestamp" w1) then _ else w1) in *.
  destruct (default_step (fun v => negb (truthy v)) l "blockHashCheckpoints"
              (VArray []) w2 o2 Hl2 eq_refl) as (o3 & Hl3 & Hs3 & Hd3 & _ & Hk3).
  cbn beta in Hl3, Hs3.
  set (w3 := if negb (truthy (load l "blockHashCheckpoints" w2)) then _ else w2)
    in *.
  destruct (default_step isUndefined l "skipCoinbaseTransactions" (VBool false)
              w3 o3 Hl3 eq_refl) as (o4 & Hl4 & Hs4 & Hd4 & _ & Hk4).
  set (w4 := if isUndefined (load l "skipCoinbaseTransactions" w3) then _ else w3)
    in *.
  rewrite snd_then_, _rawPost_sends by done. rewrite request_world. cbn [heap sent].
  rewrite Hs4, Hs3, Hs2, Hs1.
  exists o4. eexists. split; [done|]. split; [reflexivity|].
  split; [intros H; rewrite Hk4, Hk3, Hk2 by discriminate; by apply Hd1|].
  split; [intros H; rewrite Hk4, Hk3 by discriminate; apply Hd2;
          by rewrite Hk1 by discriminate|].
  split; [intros H; rewrite Hk4 by discriminate; apply Hd3;
          by rewrite Hk2, Hk1 by discriminate|].
  split; [intros H; apply Hd4; by rewrite Hk3, Hk2, Hk1 by discriminate|].
  split.
  - intros k Hk.
    rewrite Hk4, Hk3, Hk2, Hk1; [reflexivity|..]; intros ->; apply Hk;
      repeat first [apply list_elem_of_here | apply list_elem_of_further].
  - cbn [options body]. by rewrite !(load_Some _ _ _ _ Hl4).
Qed.


End Defaults.


(** The same call, evaluated: the caller's object after it, and the one
    request it sent. *)
Example blocksDetailed_fills_hashesOnly :
  heap (snd (blocksDetailed (answering VNull) client (Some callerOpts)
               (withOpts hashesOnly))) !! callerOpts
  = Some [("blockHashes", VArray [sampleHash]);
          ("timestamp", VNumber 0);
          ("blockCount", VNumber 100)]
  ∧ (body <$> sent (snd (blocksDetailed (answering VNull) client
                           (Some callerOpts) (withOpts hashesOnly))))
    = [Some (VObject [("blockIds", VArray [sampleHash]);
                      ("timestamp", VNumber 0);
                      ("blockCount", VNumber 100)])].
Proof. vm_compute. split; reflexivity. Qed.


(** * Further properties of the class *)

(** ** One call, at most one request *)

Section Delivery.

Context (env : Platform) (this : loc).

Lemma Delivered_request verb path payload (w0 w : World) :
  sent w = sent w0 → config this w = config this w0 →
  path ≠ "" →
  match verb with
  | GET => payload = None
  | POST => ∃ o, payload = Some (VObject o)
  end →
  Delivered env this w0 (request env (options this verb path payload w) w).
Proof.
  intros Hs Hc Hp Hb. exists verb, path, payload, w.
  split; [done|]. split; [done|]. split; [done|]. split; [done|].
  split; [done|]. unfold request; cbn [fst]. by destruct (daemon env _).
Qed.

Lemma Delivered_get path (w : World) :
  path ≠ "" → Delivered env this w (_get env this path w).
Proof.
  intros Hp. unfold _get. destruct (String.eqb_spec path ""); [done|].
  by apply Delivered_request.
Qed.

Lemma Delivered_rawPost endpoint o (w0 w : World) :
  sent w = sent w0 → config this w = config this w0 → endpoint ≠ "" →
  Delivered env this w0 (_rawPost env this endpoint (VObject o) w).
Proof.
  intros Hs Hc Hp. rewrite _rawPost_sends by done.
  apply Delivered_request; eauto.
Qed.

Lemma Delivered_then p f (w0 w : World) :
  Delivered env this w0 (p w) → Delivered env this w0 (then_ p f w).
Proof.
  intros (verb & path & payload & w1 & Hs & Hc & Hw & Hp & Hb & Hd).
  exists verb, path, payload, w1. rewrite snd_then_.
  repeat (split; [done|]). unfold then_.
  destruct (daemon env _); destruct (p w) as [[e0|e0|v] w']; cbn [fst] in *;
    try done; try (by destruct (f v)).
Qed.

Lemma Delivered_post name params (w0 w : World) :
  sent w = sent w0 → config this w = config this w0 → name ≠ "" →
  Delivered env this w0 (_post env this name params w).
Proof.
  intros Hs Hc Hn. unfold _post. destruct (String.eqb_spec name ""); [done|].
  apply Delivered_then. by apply Delivered_rawPost.
Qed.


Ltac delivered :=
  first
    [ apply Delivered_then
    | apply Delivered_post; [done | done | discriminate]
    | apply Delivered_rawPost; [done | done | discriminate]
    | apply Delivered_get; discriminate ].

(** Every call either throws before it has built a request, or is
    delivered. *)
Lemma invoke_outcome c (w : World) :
  (∃ e,
     fst (invoke env this c w) = Throws e
     ∧ sent (snd (invoke env this c w)) = sent w)
  ∨ Delivered env this w (invoke env this c w).
Proof.
  destruct c; cbn [invoke];
    lazymatch goal with
    | |- context [orNewObject] => idtac
    | |- context [blocksDetailed] => unfold blocksDetailed
    | |- context [blocksLite] => unfold blocksLite
    | |- context [walletSyncData] => unfold walletSyncData
    | _ =>
        unfold block, blockCount, blockHeaderByHash, blockHeaderByHeight,
          blockShortHeaders, blockTemplate, fee, globalIndexes,
          globalIndexesForRange, height, info, lastBlockHeader, peers,
          poolChanges, randomOutputs, rawBlocks, sendRawTransaction,
          submitBlock, transaction, transactionPool, transactionsStatus
    end;
    try (pose proof (orNewObject_sent opts w) as Hs;
         pose proof (config_orNewObject this opts w) as Hc;
         destruct (orNewObject opts w) as [l w0]; cbn [fst snd] in Hs, Hc);
    repeat case_match;
    first
      [ solve [ left; eexists; split; [reflexivity|];
                assumption || reflexivity ]
      | solve [ right; repeat delivered ]
      | right; try apply Delivered_then; apply Delivered_rawPost;
        [ cbn [store sent]; assumption
        | repeat (rewrite config_store
                    by (apply opts_key_not_config;
                        repeat first [apply list_elem_of_here
                                     | apply list_elem_of_further]));
          assumption
        | discriminate ] ].
Qed.

Lemma config_loads (w1 w : World) :
  config this w1 = config this w →
  load this "host" w1 = load this "host" w
  ∧ load this "port" w1 = load this "port" w
  ∧ load this "timeout" w1 = load this "timeout" w
  ∧ load this "ssl" w1 = load this "ssl" w
  ∧ load this "userAgent" w1 = load this "userAgent" w
  ∧ load this "keepAlive" w1 = load this "keepAlive" w.
Proof. unfold config, configNames. cbn [map]. intros H. by injection H. Qed.

Lemma Delivered_last (w : World) res r :
  Delivered env this w res → sent (snd res) = sent w ++ [r] →
  ∃ verb path payload w1,
    r = options this verb path payload w1
    ∧ config this w1 = config this w
    ∧ path ≠ ""
    ∧ match verb with
      | GET => payload = None
      | POST => ∃ o, payload = Some (VObject o)
      end
    ∧ match daemon env r with
      | Raised e => fst res = Throws e
      | NetworkError e => fst res = Rejects (TransportError e)
      | Parsed _ => ∀ e, fst res ≠ Throws e
      end.
Proof.
  intros (verb & path & payload & w1 & Hs & Hc & Hw & Hp & Hb & Hd) Hr.
  rewrite Hw in Hr; cbn [sent] in Hr. rewrite Hs in Hr.
  apply app_inj_tail in Hr as [_ <-]. by exists verb, path, payload, w1.
Qed.

Lemma not_sent_and_thrown c (w : World) r :
  sent (snd (invoke env this c w)) = sent w ++ [r] →
  Delivered env this w (invoke env this c w).
Proof.
  intros Hr. destruct (invoke_outcome c w) as [(e & _ & Hs)|Hd]; [|done].
  rewrite Hs in Hr. symmetry in Hr. by apply sent_grows in Hr.
Qed.

(** X1.  A call hands at most one request to the HTTP library.  A call
    that returns its promise has handed over exactly one: no method asks
    twice, and none returns a promise without having asked.  A call that
    throws has handed over none, unless what it throws is what the library
    threw at the one request it was handed. *)
Theorem one_request_per_returned_promise c (w : World) :
  match fst (invoke env this c w) with
  | Throws e =>
      sent (snd (invoke env this c w)) = sent w
      ∨ ∃ r, sent (snd (invoke env this c w)) = sent w ++ [r]
             ∧ daemon env r = Raised e
  | Rejects _ | Resolves _ =>
      ∃ r, sent (snd (invoke env this c w)) = sent w ++ [r]
  end.
Proof.
  destruct (invoke_outcome c w) as [(e & -> & Hs)|Hd]; [by left|].
  destruct Hd as (verb & path & payload & w1 & Hs & _ & Hw & _ & _ & Hd).
  rewrite Hw; cbn [sent]. rewrite Hs.
  destruct (fst (invoke env this c w)) as [e|e|v]; eauto.
  right. eexists. split; [reflexivity|].
  destruct (daemon env _) as [e'|e'|response];
    [by injection Hd as -> | discriminate Hd | by destruct (Hd e)].
Qed.

(** X2.  When the HTTP library fails on the request a call has sent, the
    call is rejected with that very failure: no method catches it, retries
    or turns it into a value. *)
Theorem transport_failure_is_passed_on c (w : World) r e :
  sent (snd (invoke env this c w)) = sent w ++ [r] →
  daemon env r = NetworkError e →
  fst (invoke env this c w) = Rejects (TransportError e).
Proof.
  intros Hr He. pose proof (not_sent_and_thrown c w r Hr) as Hd.
  destruct (Delivered_last w _ r Hd Hr) as (? & ? & ? & ? & _ & _ & _ & _ & Hf).
  by rewrite He in Hf.
Qed.

(** X3.  The request of every call is built from the six configuration
    fields of the client as they were when the call started: https exactly
    when [ssl] is truthy, the configured host and port, the configured
    timeout, the keep-alive flag as [forever], the user agent as the only
    header, and JSON decoding switched on. *)
Theorem requests_follow_the_configuration c (w : World) r :
  sent (snd (invoke env this c w)) = sent w ++ [r] →
  (∃ path,
     path ≠ ""
     ∧ uri r = (if truthy (load this "ssl" w) then "https" else "http",
                load this "host" w, load this "port" w, path))
  ∧ timeout r = load this "timeout" w
  ∧ forever r = load this "keepAlive" w
  ∧ headers r = [("User-Agent", load this "userAgent" w)]
  ∧ json r = true.
Proof.
  intros Hr. pose proof (not_sent_and_thrown c w r Hr) as Hd.
  destruct (Delivered_last w _ r Hd Hr)
    as (verb & path & payload & w1 & -> & Hc & Hp & _ & _).
  apply config_loads in Hc as (Hh & Hpo & Ht & Hssl & Hu & Hk).
  cbn [options uri timeout forever headers json].
  rewrite Hh, Hpo, Ht, Hssl, Hu, Hk. eauto 10.
Qed.

(** X5.  A GET request goes out without a body and a POST request with an
    object as its body, JSON-RPC envelope or endpoint-specific record: no
    call posts [undefined], a string or a bare array. *)
Theorem request_bodies_fit_the_verb c (w : World) r :
  sent (snd (invoke env this c w)) = sent w ++ [r] →
  match method r with
  | GET => body r = None
  | POST => ∃ o, body r = Some (VObject o)
  end.
Proof.
  intros Hr. pose proof (not_sent_and_thrown c w r Hr) as Hd.
  destruct (Delivered_last w _ r Hd Hr)
    as (verb & path & payload & w1 & -> & _ & _ & Hb & _).
  by cbn [options method body].
Qed.

End Delivery.

Lemma transport_failure_is_passed_on_witness :
  sent (snd (invoke unreachable client Call_blockCount started))
  = sent started ++ [countRequest]
  ∧ daemon unreachable countRequest = NetworkError "ECONNREFUSED"
  ∧ fst (invoke unreachable client Call_blockCount started)
    = Rejects (TransportError "ECONNREFUSED").
Proof.
  split; [reflexivity|]. split; [reflexivity|].
  exact (transport_failure_is_passed_on unreachable client Call_blockCount
           started countRequest "ECONNREFUSED" eq_refl eq_refl).
Defined.

Lemma requests_follow_the_configuration_witness :
  sent (snd (invoke (answering VNull) client Call_fee started))
  = sent started ++ [feeRequest]
  ∧ (∃ path,
       path ≠ ""
       ∧ uri feeRequest
         = (if truthy (load client "ssl" started) then "https" else "http",
            load client "host" started, load client "port" started, path))
  ∧ timeout feeRequest = load client "timeout" started
  ∧ forever feeRequest = load client "keepAlive" started
  ∧ headers feeRequest = [("User-Agent", load client "userAgent" started)]
  ∧ json feeRequest = true.
Proof.
  split; [reflexivity|].
  exact (requests_follow_the_configuration (answering VNull) client Call_fee
           started feeRequest eq_refl).
Defined.

Lemma request_bodies_fit_the_verb_witness :
  sent (snd (invoke (answering VNull) client Call_blockCount started))
  = sent started ++ [countRequest]
  ∧ ∃ o, body countRequest = Some (VObject o).
Proof.
  split; [reflexivity|].
  exact (request_bodies_fit_the_verb (answering VNull) client Call_blockCount
           started countRequest eq_refl).
Defined.

(** ** Replies that are handed on *)

Section Replies.

Context (env : Platform) (this : loc).

Lemma _rawPost_reply endpoint o (w w0 : World) r response :
  endpoint ≠ "" → sent w = sent w0 →
  sent (snd (_rawPost env this endpoint (VObject o) w)) = sent w0 ++ [r] →
  daemon env r = Parsed response →
  fst (_rawPost env this endpoint (VObject o) w) = Resolves response.
Proof.
  intros He Hs. rewrite _rawPost_sends by done. intros Hr Hd.
  apply (sent_request_inv env _ _ _ _ Hs) in Hr. rewrite fst_request, Hr. by rewrite Hd.
Qed.

Lemma _get_reply path (w : World) r response :
  path ≠ "" →
  sent (snd (_get env this path w)) = sent w ++ [r] →
  daemon env r = Parsed response →
  fst (_get env this path w) = Resolves response.
Proof.
  intros Hp. unfold _get. destruct (String.eqb_spec path ""); [done|].
  intros Hr Hd. apply (sent_request_inv env w w _ _ eq_refl) in Hr.
  rewrite fst_request, Hr. by rewrite Hd.
Qed.

(** X6.  [fee], [height], [info], [peers], [blocksDetailed],
    [randomOutputs] and [sendRawTransaction] resolve with the parsed reply
    exactly as it came, whatever it is: they look at no status and no error
    member, so a reply that reports a failure is a resolved promise too. *)
Theorem replies_are_returned_unexamined c (w : World) r response :
  returnsReply c = true →
  sent (snd (invoke env this c w)) = sent w ++ [r] →
  daemon env r = Parsed response →
  fst (invoke env this c w) = Resolves response.
Proof.
  intros Hc Hr Hd. destruct c; try discriminate Hc; cbn [invoke] in *.
  - unfold blocksDetailed in *.
    pose proof (orNewObject_sent opts w) as Hs.
    destruct (orNewObject opts w) as [l w0]; cbn [snd] in Hs.
    destruct (negb (isArray (load l "blockHashes" w0)));
      [by destruct (sent_throw_inv _ _ _ _ Hs Hr)|].
    eapply _rawPost_reply; [discriminate | | exact Hr | exact Hd].
    by repeat case_match.
  - apply (_get_reply _ _ r); [discriminate | exact Hr | exact Hd].
  - apply (_get_reply _ _ r); [discriminate | exact Hr | exact Hd].
  - apply (_get_reply _ _ r); [discriminate | exact Hr | exact Hd].
  - apply (_get_reply _ _ r); [discriminate | exact Hr | exact Hd].
  - unfold randomOutputs in *.
    repeat case_match;
      try (by destruct (sent_throw_inv _ _ _ _ eq_refl Hr));
      try (by destruct (sent_same_inv _ _ _ eq_refl Hr));
      (eapply _rawPost_reply; [discriminate | reflexivity | exact Hr | exact Hd]).
  - unfold sendRawTransaction in *.
    repeat case_match;
      try (by destruct (sent_throw_inv _ _ _ _ eq_refl Hr)).
    eapply _rawPost_reply; [discriminate | reflexivity | exact Hr | exact Hd].
Qed.

Lemma then_post_member name params k (w : World) r e :
  name ≠ "" →
  sent (snd (then_ (_post env this name params)
               (fun response => getProp response k) w)) = sent w ++ [r] →
  daemon env r = Parsed (VObject e) →
  truthy (field "error" e) = false →
  fst (then_ (_post env this name params)
         (fun response => getProp response k) w)
  = match field "result" e with
    | VUndefined | VNull => Rejects TypeError
    | result => Resolves (prop result k)
    end.
Proof.
  intros Hn Hr Hd He. rewrite snd_then_, _post_settles in Hr by done.
  cbn zeta in Hr. cbn [snd sent] in Hr. apply app_inj_tail in Hr as [_ Hr].
  unfold then_. rewrite _post_settles by done. cbn zeta.
  rewrite Hr, Hd, _post_then_object, He.
  by destruct (field "result" e).
Qed.

(** X7.  The methods that extract a member of the JSON-RPC result do not
    check that it is there: answered by an envelope without a truthy
    [error], they resolve with the member when the result is an object that
    has it, with [undefined] when the result lacks it, and are rejected with
    a TypeError when the envelope has no result at all. *)
Theorem result_member_is_not_checked c k (w : World) r e :
  returnsMember c = Some k →
  sent (snd (invoke env this c w)) = sent w ++ [r] →
  daemon env r = Parsed (VObject e) →
  truthy (field "error" e) = false →
  fst (invoke env this c w)
  = match field "result" e with
    | VUndefined | VNull => Rejects TypeError
    | result => Resolves (prop result k)
    end.
Proof.
  intros Hk Hr Hd He.
  destruct c; try discriminate Hk; injection Hk as <-; cbn [invoke] in *;
    unfold block, blockCount, blockHeaderByHash, blockHeaderByHeight,
      blockShortHeaders, lastBlockHeader, transactionPool in *;
    try (revert Hr;
         lazymatch goal with
         | |- context [if ?b then throw _ _ else _] => destruct b
         end; intros Hr);
    try (by destruct (sent_throw_inv _ _ _ _ eq_refl Hr));
    (apply (then_post_member _ _ _ _ r);
       [discriminate | exact Hr | exact Hd | exact He]).
Qed.

End Replies.

Lemma replies_are_returned_unexamined_witness :
  returnsReply (Call_sendRawTransaction (VString "0100")) = true
  ∧ sent (snd (invoke (answering (VObject [("status", VString "Failed")]))
                 client (Call_sendRawTransaction (VString "0100")) started))
    = sent started
      ++ [options client POST "sendrawtransaction"
            (Some (VObject [("tx_as_hex", VString "0100")])) started]
  ∧ daemon (answering (VObject [("status", VString "Failed")]))
      (options client POST "sendrawtransaction"
         (Some (VObject [("tx_as_hex", VString "0100")])) started)
    = Parsed (VObject [("status", VString "Failed")])
  ∧ fst (invoke (answering (VObject [("status", VString "Failed")])) client
           (Call_sendRawTransaction (VString "0100")) started)
    = Resolves (VObject [("status", VString "Failed")]).
Proof.
  repeat (split; [reflexivity|]).
  exact (replies_are_returned_unexamined
           (answering (VObject [("status", VString "Failed")])) client
           (Call_sendRawTransaction (VString "0100")) started _ _
           eq_refl eq_refl eq_refl).
Defined.

Lemma result_member_is_not_checked_witness :
  returnsMember Call_blockCount = Some "count"
  ∧ sent (snd (invoke (answering (envelope (VObject [("count", VNumber 12345)])))
                 client Call_blockCount started))
    = sent started ++ [countRequest]
  ∧ daemon (answering (envelope (VObject [("count", VNumber 12345)])))
      countRequest
    = Parsed (envelope (VObject [("count", VNumber 12345)]))
  ∧ truthy (prop (envelope (VObject [("count", VNumber 12345)])) "error") = false
  ∧ fst (invoke (answering (envelope (VObject [("count", VNumber 12345)])))
           client Call_blockCount started)
    = Resolves (VNumber 12345).
Proof.
  repeat (split; [reflexivity|]).
  exact (result_member_is_not_checked
           (answering (envelope (VObject [("count", VNumber 12345)]))) client
           Call_blockCount "count" started countRequest
           [("jsonrpc", VString "2.0"); ("id", VNull);
            ("result", VObject [("count", VNumber 12345)])]
           eq_refl eq_refl eq_refl eq_refl).
Defined.

(** ** What the constructor and the methods do to the heap *)

Lemma lookup_store_other (l l' : loc) k v (w : World) :
  l ≠ l' → heap (store l' k v w) !! l = heap w !! l.
Proof. intros Hne. unfold store; cbn [heap]. by rewrite lookup_insert_ne. Qed.

Lemma sent_store (l : loc) k v (w : World) : sent (store l k v w) = sent w.
Proof. done. Qed.

(** X8.  [new MONCoind(opts)] makes its instance at an address nothing
    lived at, gives it the six configuration fields and no other, sends
    nothing and leaves every object that existed as it was: clients made one
    after the other do not share or disturb each other's configuration. *)
Theorem constructor_makes_a_separate_instance env opts (w : World) :
  heap w !! fst (constructor env opts w) = None
  ∧ (∃ o, heap (snd (constructor env opts w)) !! fst (constructor env opts w)
          = Some o
          ∧ keys o = configNames)
  ∧ sent (snd (constructor env opts w)) = sent w
  ∧ ∀ (l : loc) (o : Obj),
      heap w !! l = Some o → heap (snd (constructor env opts w)) !! l = Some o.
Proof.
  unfold constructor. cbn [newObject fst snd].
  set (l := fresh (dom (heap w))).
  assert (heap w !! l = None) as Hfresh by apply (newObject_fresh w).
  set (w0 := {| heap := <[l:=[]]> (heap w); sent := sent w |}).
  assert (heap w0 !! l = Some []) as H0 by apply lookup_insert_eq.
  split; [done|]. split; [|split; [done|]].
  - eexists. split.
    + repeat (apply lookup_store). exact H0.
    + reflexivity.
  - intros l' o Hl'. assert (l' ≠ l) as Hne by congruence.
    rewrite !lookup_store_other by done. unfold w0; cbn [heap].
    by rewrite lookup_insert_ne.
Qed.

Lemma onlyDefaulted_refl (o : Obj) : onlyDefaulted o o.
Proof. by split. Qed.

Lemma onlyDefaulted_trans (o1 o2 o3 : Obj) :
  onlyDefaulted o1 o2 → onlyDefaulted o2 o3 → onlyDefaulted o1 o3.
Proof.
  intros [Hk1 Hs1] [Hk2 Hs2]. split.
  - intros k Hk. by rewrite Hk2, Hk1.
  - intros k Hk. by apply Hs2, Hs1.
Qed.

Lemma onlyDefaulted_assign k v (o : Obj) :
  k ∈ defaultedNames → onlyDefaulted o (assign k v o).
Proof.
  intros Hk. split.
  - intros k' Hk'. apply own_assign_ne. by intros ->.
  - intros k' Hsome. destruct (String.eqb_spec k' k) as [->|Hne].
    + rewrite own_assign_eq. eauto.
    + by rewrite own_assign_ne.
Qed.

Lemma touchesOnly_heap target (w w' : World) :
  heap w' = heap w → touchesOnly target w w'.
Proof.
  intros Hh l o Hl. exists o. rewrite Hh.
  split; [done|]. split; [done | apply onlyDefaulted_refl].
Qed.

Lemma touchesOnly_trans target (w1 w2 w3 : World) :
  touchesOnly target w1 w2 → touchesOnly target w2 w3 →
  touchesOnly target w1 w3.
Proof.
  intros H12 H23 l o Hl.
  destruct (H12 l o Hl) as (o2 & Hl2 & Heq2 & Hd2).
  destruct (H23 l o2 Hl2) as (o3 & Hl3 & Heq3 & Hd3).
  exists o3. split; [done|]. split.
  - intros Ht. by rewrite Heq3, Heq2.
  - by eapply onlyDefaulted_trans.
Qed.

Lemma touchesOnly_store (l : loc) k v (w : World) :
  k ∈ defaultedNames → touchesOnly (Some l) w (store l k v w).
Proof.
  intros Hk l' o Hl'. destruct (decide (l' = l)) as [->|Hne].
  - exists (assign k v o). split; [by apply lookup_store|].
    split; [congruence | by apply onlyDefaulted_assign].
  - exists o. rewrite lookup_store_other by done.
    split; [done|]. split; [done | apply onlyDefaulted_refl].
Qed.

Lemma touchesOnly_default (absent : bool) (l : loc) k v (w : World) :
  k ∈ defaultedNames →
  touchesOnly (Some l) w (if absent then store l k v w else w).
Proof.
  intros Hk. destruct absent; [by apply touchesOnly_store|].
  by apply touchesOnly_heap.
Qed.

(** Writes into an object made by the call itself touch nothing the caller
    has. *)
Lemma touchesOnly_new (w w' : World) :
  touchesOnly (Some (fst (newObject w))) (snd (newObject w)) w' →
  touchesOnly None w w'.
Proof.
  intros H l o Hl.
  destruct (H l o (lookup_newObject l o w Hl)) as (o' & Hl' & Heq & Hd).
  exists o'. split; [done|]. split; [|done].
  intros _. apply Heq. intros [= Hf].
  pose proof (newObject_fresh w) as Hfresh. cbn [newObject fst] in Hf, Hfresh.
  rewrite Hf in Hfresh. congruence.
Qed.

Section Writes.

Context (env : Platform) (this : loc).

Ltac defaulted_name :=
  repeat first [apply list_elem_of_here | apply list_elem_of_further].

Lemma touchesOnly_blocksDetailed (l : loc) (w : World) :
  touchesOnly (Some l) w (snd (blocksDetailed env this (Some l) w)).
Proof.
  unfold blocksDetailed. cbn [orNewObject].
  destruct (negb (isArray (load l "blockHashes" w)));
    [by apply touchesOnly_heap|].
  cbn zeta.
  eapply touchesOnly_trans; [|apply touchesOnly_heap, _rawPost_heap].
  set (w1 := if isUndefined (load l "timestamp" w) then _ else w).
  apply (touchesOnly_trans _ _ w1); apply touchesOnly_default; defaulted_name.
Qed.

Lemma touchesOnly_blocksLite (l : loc) (w : World) :
  touchesOnly (Some l) w (snd (blocksLite env this (Some l) w)).
Proof.
  unfold blocksLite. cbn [orNewObject].
  destruct (negb (isArray (load l "blockHashes" w)));
    [by apply touchesOnly_heap|].
  cbn zeta. rewrite snd_then_.
  eapply touchesOnly_trans; [|apply touchesOnly_heap, _rawPost_heap].
  apply touchesOnly_default; defaulted_name.
Qed.

Lemma touchesOnly_walletSyncData (l : loc) (w : World) :
  touchesOnly (Some l) w (snd (walletSyncData env this (Some l) w)).
Proof.
  unfold walletSyncData. cbn [orNewObject]. cbn zeta. rewrite snd_then_.
  eapply touchesOnly_trans; [|apply touchesOnly_heap, _rawPost_heap].
  set (w1 := if isUndefined (load l "startHeight" w) then _ else w).
  set (w2 := if isUndefined (load l "startTimestamp" w1) then _ else w1).
  set (w3 := if negb (truthy (load l "blockHashCheckpoints" w2)) then _ else w2).
  apply (touchesOnly_trans _ _ w3); [|apply touchesOnly_default; defaulted_name].
  apply (touchesOnly_trans _ _ w2); [|apply touchesOnly_default; defaulted_name].
  apply (touchesOnly_trans _ _ w1); apply touchesOnly_default; defaulted_name.
Qed.

Lemma invoke_heap_plain c (w : World) :
  match c with
  | Call_blocksDetailed _ | Call_blocksLite _ | Call_walletSyncData _ => True
  | _ => heap (snd (invoke env this c w)) = heap w
  end.
Proof.
  destruct c; try exact I; cbn [invoke];
    unfold block, blockCount, blockHeaderByHash, blockHeaderByHeight,
      blockShortHeaders, blockTemplate, fee, globalIndexes,
      globalIndexesForRange, height, info, lastBlockHeader, peers,
      poolChanges, randomOutputs, rawBlocks, sendRawTransaction, submitBlock,
      transaction, transactionPool, transactionsStatus, throw;
    repeat case_match; cbn [snd];
    rewrite ?snd_then_, ?_rawPost_heap, ?_post_heap, ?_get_heap; reflexivity.
Qed.

(** X9.  A call removes no object from the heap and changes none except
    the [opts] object it was handed; in that object it writes nothing but
    the six members it gives a default ([timestamp], [blockCount],
    [startHeight], [startTimestamp], [blockHashCheckpoints],
    [skipCoinbaseTransactions]) and deletes no member.  Called without
    [opts], a method changes nothing the caller holds. *)
Theorem calls_touch_only_their_options c (w : World) :
  touchesOnly (optsOf c) w (snd (invoke env this c w)).
Proof.
  pose proof (invoke_heap_plain c w) as Hplain.
  destruct c; cbn [optsOf];
    try (by apply touchesOnly_heap);
    cbn [invoke]; destruct opts as [l|];
    try apply touchesOnly_blocksDetailed;
    try apply touchesOnly_blocksLite;
    try apply touchesOnly_walletSyncData;
    apply touchesOnly_new.
  - apply (touchesOnly_blocksDetailed _ (snd (newObject w))).
  - apply (touchesOnly_blocksLite _ (snd (newObject w))).
  - apply (touchesOnly_walletSyncData _ (snd (newObject w))).
Qed.

End Writes.

Lemma calls_touch_only_their_options_witness :
  heap (withOpts hashesOnly) !! client = Some clientFields
  ∧ ∃ o',
      heap (snd (invoke (answering VNull) client
                   (Call_walletSyncData (Some callerOpts))
                   (withOpts hashesOnly))) !! client = Some o'
      ∧ (Some callerOpts ≠ Some client → o' = clientFields)
      ∧ onlyDefaulted clientFields o'.
Proof.
  split; [reflexivity|].
  exact (calls_touch_only_their_options (answering VNull) client
           (Call_walletSyncData (Some callerOpts)) (withOpts hashesOnly)
           client clientFields eq_refl).
Defined.

(** ** Reading a member after its default *)



Lemma default_sent (absent : JsVal → bool) (l : loc) k v (w : World) :
  sent (if absent (load l k w) then store l k v w else w) = sent w.
Proof. by destruct (absent _). Qed.



Lemma falsy_sent (l : loc) k v (w : World) :
  sent (if negb (truthy (load l k w)) then store l k v w else w) = sent w.
Proof. exact (default_sent (fun x => negb (truthy x)) l k v w). Qed.

(** ** Defaults are written once *)

Section Settled.

Context (env : Platform) (this : loc).

Lemma default_settles (absent : JsVal → bool) (l : loc) k v (w : World) :
  absent v = false →
  absent (load l k (if absent (load l k w) then store l k v w else w)) = false.
Proof.
  intros Hv. destruct (absent (load l k w)) eqn:Ha; [|done].
  by rewrite load_store_eq.
Qed.

Lemma default_keeps (b : bool) (l : loc) k k' v (w : World) :
  k ≠ k' → load l k (if b then store l k' v w else w) = load l k w.
Proof. intros Hne. destruct b; [|done]. by apply load_store_ne. Qed.

Lemma load_heap (l : loc) k (w w' : World) :
  heap w' = heap w → load l k w' = load l k w.
Proof. intros H. unfold load. by rewrite H. Qed.

Lemma load_record (l : loc) k (w : World) s :
  load l k {| heap := heap w; sent := s |} = load l k w.
Proof. done. Qed.

Lemma default_done (absent : JsVal → bool) (l : loc) k v (w : World) :
  absent (load l k w) = false →
  (if absent (load l k w) then store l k v w else w) = w.
Proof. by intros ->. Qed.

(** What a first call leaves: the world [w'] in which the defaults are set,
    and the request, built in [w'], that was handed over. *)
Lemma walletSyncData_first (l : loc) (w : World) :
  ∃ w',
    sent w' = sent w
    ∧ snd (walletSyncData env this (Some l) w)
      = {| heap := heap w';
           sent := sent w'
                   ++ [options this POST "getwalletsyncdata"
                         (Some (VObject
                                  [("startHeight", load l "startHeight" w');
                                   ("startTimestamp",
                                    load l "startTimestamp" w');
                                   ("blockHashCheckpoints",
                                    load l "blockHashCheckpoints" w');
                                   ("skipCoinbaseTransactions",
                                    load l "skipCoinbaseTransactions" w')]))
                         w'] |}
    ∧ isUndefined (load l "startHeight" w') = false
    ∧ isUndefined (load l "startTimestamp" w') = false
    ∧ negb (truthy (load l "blockHashCheckpoints" w')) = false
    ∧ isUndefined (load l "skipCoinbaseTransactions" w') = false.
Proof.
  unfold walletSyncData. cbn [orNewObject]. cbn zeta.
  set (w1 := if isUndefined (load l "startHeight" w) then _ else w).
  set (w2 := if isUndefined (load l "startTimestamp" w1) then _ else w1).
  set (w3 := if negb (truthy (load l "blockHashCheckpoints" w2)) then _ else w2).
  set (w4 := if isUndefined (load l "skipCoinbaseTransactions" w3) then _ else w3).
  rewrite snd_then_, _rawPost_sends by done. rewrite request_world.
  exists w4. split; [|split; [reflexivity|]].
  { unfold w4, w3, w2, w1.
    by rewrite default_sent, falsy_sent, !default_sent. }
  split; [|split; [|split]].
  - unfold w4, w3, w2. rewrite !default_keeps by discriminate.
    exact (default_settles isUndefined l "startHeight" (VNumber 0) w eq_refl).
  - unfold w4, w3. rewrite !default_keeps by discriminate.
    exact (default_settles isUndefined l "startTimestamp" (VNumber 0) w1 eq_refl).
  - unfold w4. rewrite !default_keeps by discriminate.
    exact (default_settles (fun v => negb (truthy v)) l "blockHashCheckpoints"
             (VArray []) w2 eq_refl).
  - exact (default_settles isUndefined l "skipCoinbaseTransactions" (VBool false)
             w3 eq_refl).
Qed.

Lemma walletSyncData_again (l : loc) (w : World) :
  ∃ r,
    sent (snd (walletSyncData env this (Some l) w)) = sent w ++ [r]
    ∧ snd (walletSyncData env this (Some l)
             (snd (walletSyncData env this (Some l) w)))
      = {| heap := heap (snd (walletSyncData env this (Some l) w));
           sent := sent (snd (walletSyncData env this (Some l) w)) ++ [r] |}.
Proof.
  destruct (walletSyncData_first l w) as (w' & Hs & -> & H1 & H2 & H3 & H4).
  eexists. split; [cbn [sent]; by rewrite Hs|].
  unfold walletSyncData. cbn [orNewObject]. cbn zeta.
  rewrite (default_done isUndefined l "startHeight") by exact H1.
  rewrite (default_done isUndefined l "startTimestamp") by exact H2.
  rewrite (default_done (fun v => negb (truthy v)) l "blockHashCheckpoints")
    by exact H3.
  rewrite (default_done isUndefined l "skipCoinbaseTransactions") by exact H4.
  by rewrite snd_then_, _rawPost_sends, request_world.
Qed.

Lemma blocksDetailed_first (l : loc) (w : World) :
  isArray (load l "blockHashes" w) = true →
  ∃ w',
    sent w' = sent w
    ∧ snd (blocksDetailed env this (Some l) w)
      = {| heap := heap w';
           sent := sent w'
                   ++ [options this POST "queryblocksdetailed"
                         (Some (VObject
                                  [("blockIds", load l "blockHashes" w');
                                   ("timestamp", load l "timestamp" w');
                                   ("blockCount", load l "blockCount" w')]))
                         w'] |}
    ∧ isArray (load l "blockHashes" w') = true
    ∧ isUndefined (load l "timestamp" w') = false
    ∧ isUndefined (load l "blockCount" w') = false.
Proof.
  intros Ha. unfold blocksDetailed. cbn [orNewObject]. rewrite Ha.
  cbn [negb]. cbn zeta.
  set (w1 := if isUndefined (load l "timestamp" w) then _ else w).
  set (w2 := if isUndefined (load l "blockCount" w1) then _ else w1).
  rewrite _rawPost_sends by done. rewrite request_world.
  exists w2. split; [|split; [reflexivity|]].
  { unfold w2, w1. by rewrite !default_sent. }
  split; [|split].
  - unfold w2, w1. by rewrite !default_keeps by discriminate.
  - unfold w2. rewrite default_keeps by discriminate.
    exact (default_settles isUndefined l "timestamp" (VNumber 0) w eq_refl).
  - exact (default_settles isUndefined l "blockCount" (VNumber 100) w1 eq_refl).
Qed.

Lemma blocksDetailed_again (l : loc) (w : World) :
  heap (snd (blocksDetailed env this (Some l)
               (snd (blocksDetailed env this (Some l) w))))
  = heap (snd (blocksDetailed env this (Some l) w))
  ∧ ∀ r,
      sent (snd (blocksDetailed env this (Some l) w)) = sent w ++ [r] →
      sent (snd (blocksDetailed env this (Some l)
                   (snd (blocksDetailed env this (Some l) w))))
      = sent (snd (blocksDetailed env this (Some l) w)) ++ [r].
Proof.
  destruct (isArray (load l "blockHashes" w)) eqn:Ha.
  - destruct (blocksDetailed_first l w Ha) as (w' & Hs & -> & Ha' & H1 & H2).
    assert (snd (blocksDetailed env this (Some l)
                   {| heap := heap w';
                      sent := sent w'
                              ++ [options this POST "queryblocksdetailed"
                                    (Some (VObject
                                             [("blockIds",
                                               load l "blockHashes" w');
                                              ("timestamp",
                                               load l "timestamp" w');
                                              ("blockCount",
                                               load l "blockCount" w')]))
                                    w'] |})
            = {| heap := heap w';
                 sent := (sent w'
                          ++ [options this POST "queryblocksdetailed"
                                (Some (VObject
                                         [("blockIds",
                                           load l "blockHashes" w');
                                          ("timestamp", load l "timestamp" w');
                                          ("blockCount",
                                           load l "blockCount" w')]))
                                w'])
                         ++ [options this POST "queryblocksdetailed"
                               (Some (VObject
                                        [("blockIds",
                                          load l "blockHashes" w');
                                         ("timestamp", load l "timestamp" w');
                                         ("blockCount",
                                          load l "blockCount" w')]))
                               w'] |}) as ->.
    { unfold blocksDetailed. cbn [orNewObject]. rewrite load_record, Ha'.
      cbn [negb]. cbn zeta.
      rewrite (default_done isUndefined l "timestamp") by exact H1.
      rewrite (default_done isUndefined l "blockCount") by exact H2.
      by rewrite _rawPost_sends, request_world. }
    split; [reflexivity|]. cbn [sent]. rewrite Hs.
    intros r Hr. apply app_inj_tail in Hr as [_ <-]. reflexivity.
  - assert (snd (blocksDetailed env this (Some l) w) = w) as ->.
    { unfold blocksDetailed. cbn [orNewObject]. by rewrite Ha. }
    assert (snd (blocksDetailed env this (Some l) w) = w) as ->.
    { unfold blocksDetailed. cbn [orNewObject]. by rewrite Ha. }
    split; [reflexivity|]. intros r Hr. by destruct (sent_grows _ _ (eq_sym Hr)).
Qed.

Lemma blocksLite_first (l : loc) (w : World) :
  isArray (load l "blockHashes" w) = true →
  ∃ w',
    sent w' = sent w
    ∧ snd (blocksLite env this (Some l) w)
      = {| heap := heap w';
           sent := sent w'
                   ++ [options this POST "queryblockslite"
                         (Some (VObject
                                  [("blockIds", load l "blockHashes" w');
                                   ("timestamp", load l "timestamp" w')]))
                         w'] |}
    ∧ isArray (load l "blockHashes" w') = true
    ∧ isUndefined (load l "timestamp" w') = false.
Proof.
  intros Ha. unfold blocksLite. cbn [orNewObject]. rewrite Ha.
  cbn [negb]. cbn zeta.
  set (w1 := if isUndefined (load l "timestamp" w) then _ else w).
  rewrite snd_then_, _rawPost_sends by done. rewrite request_world.
  exists w1. split; [|split; [reflexivity|]].
  { unfold w1. by rewrite default_sent. }
  split.
  - unfold w1. by rewrite default_keeps by discriminate.
  - exact (default_settles isUndefined l "timestamp" (VNumber 0) w eq_refl).
Qed.

Lemma blocksLite_again (l : loc) (w : World) :
  heap (snd (blocksLite env this (Some l)
               (snd (blocksLite env this (Some l) w))))
  = heap (snd (blocksLite env this (Some l) w))
  ∧ ∀ r,
      sent (snd (blocksLite env this (Some l) w)) = sent w ++ [r] →
      sent (snd (blocksLite env this (Some l)
                   (snd (blocksLite env this (Some l) w))))
      = sent (snd (blocksLite env this (Some l) w)) ++ [r].
Proof.
  destruct (isArray (load l "blockHashes" w)) eqn:Ha.
  - destruct (blocksLite_first l w Ha) as (w' & Hs & -> & Ha' & H1).
    assert (snd (blocksLite env this (Some l)
                   {| heap := heap w';
                      sent := sent w'
                              ++ [options this POST "queryblockslite"
                                    (Some (VObject
                                             [("blockIds",
                                               load l "blockHashes" w');
                                              ("timestamp",
                                               load l "timestamp" w')]))
                                    w'] |})
            = {| heap := heap w';
                 sent := (sent w'
                          ++ [options this POST "queryblockslite"
                                (Some (VObject
                                         [("blockIds",
                                           load l "blockHashes" w');
                                          ("timestamp",
                                           load l "timestamp" w')]))
                                w'])
                         ++ [options this POST "queryblockslite"
                               (Some (VObject
                                        [("blockIds",
                                          load l "blockHashes" w');
                                         ("timestamp",
                                          load l "timestamp" w')]))
                               w'] |}) as ->.
    { unfold blocksLite. cbn [orNewObject]. rewrite load_record, Ha'.
      cbn [negb]. cbn zeta.
      rewrite (default_done isUndefined l "timestamp") by exact H1.
      by rewrite snd_then_, _rawPost_sends, request_world. }
    split; [reflexivity|]. cbn [sent]. rewrite Hs.
    intros r Hr. apply app_inj_tail in Hr as [_ <-]. reflexivity.
  - assert (snd (blocksLite env this (Some l) w) = w) as ->.
    { unfold blocksLite. cbn [orNewObject]. by rewrite Ha. }
    assert (snd (blocksLite env this (Some l) w) = w) as ->.
    { unfold blocksLite. cbn [orNewObject]. by rewrite Ha. }
    split; [reflexivity|]. intros r Hr. by destruct (sent_grows _ _ (eq_sym Hr)).
Qed.

(** X10.  The defaults are written once.  A second call of [blocksDetailed],
    [blocksLite] or [walletSyncData] with the options object a first call
    has filled in finds every defaulted member set: it leaves the heap as
    the first call left it, and the request it hands to the HTTP library is
    the request of the first call again, with the same body. *)
Theorem defaults_are_written_once (l : loc) (w : World) :
  (heap (snd (blocksDetailed env this (Some l)
                (snd (blocksDetailed env this (Some l) w))))
   = heap (snd (blocksDetailed env this (Some l) w))
   ∧ ∀ r,
       sent (snd (blocksDetailed env this (Some l) w)) = sent w ++ [r] →
       sent (snd (blocksDetailed env this (Some l)
                    (snd (blocksDetailed env this (Some l) w))))
       = sent w ++ [r; r])
  ∧ (heap (snd (blocksLite env this (Some l)
                  (snd (blocksLite env this (Some l) w))))
     = heap (snd (blocksLite env this (Some l) w))
     ∧ ∀ r,
         sent (snd (blocksLite env this (Some l) w)) = sent w ++ [r] →
         sent (snd (blocksLite env this (Some l)
                      (snd (blocksLite env this (Some l) w))))
         = sent w ++ [r; r])
  ∧ ∃ r,
      sent (snd (walletSyncData env this (Some l) w)) = sent w ++ [r]
      ∧ heap (snd (walletSyncData env this (Some l)
                     (snd (walletSyncData env this (Some l) w))))
        = heap (snd (walletSyncData env this (Some l) w))
      ∧ sent (snd (walletSyncData env this (Some l)
                     (snd (walletSyncData env this (Some l) w))))
        = sent w ++ [r; r].
Proof.
  split; [|split].
  - destruct (blocksDetailed_again l w) as [Hh Hs]. split; [exact Hh|].
    intros r Hr. rewrite (Hs r Hr), Hr. by rewrite <- app_assoc.
  - destruct (blocksLite_again l w) as [Hh Hs]. split; [exact Hh|].
    intros r Hr. rewrite (Hs r Hr), Hr. by rewrite <- app_assoc.
  - destruct (walletSyncData_again l w) as (r & Hr & ->). exists r.
    split; [exact Hr|]. split; [reflexivity|]. cbn [sent].
    rewrite Hr. by rewrite <- app_assoc.
Qed.

End Settled.

Lemma defaults_are_written_once_witness :
  sent (snd (blocksLite (answering liteResponse) client (Some callerOpts)
               (withOpts hashesOnly)))
  = sent (withOpts hashesOnly) ++ [liteRequest]
  ∧ sent (snd (blocksLite (answering liteResponse) client (Some callerOpts)
                 (snd (blocksLite (answering liteResponse) client
                         (Some callerOpts) (withOpts hashesOnly)))))
    = sent (withOpts hashesOnly) ++ [liteRequest; liteRequest].
Proof.
  split; [reflexivity|].
  exact (proj2 (proj1 (proj2 (defaults_are_written_once
                                (answering liteResponse) client callerOpts
                                (withOpts hashesOnly))))
           liteRequest eq_refl).
Defined.

(** ** Numbers through [parseInt] *)








Section Bodies.

Context (env : Platform) (this : loc).


(** X12.  [rawBlocks] puts a block count in its request only when the
    argument is truthy: a count of zero is left out like a missing one, and
    a non-zero number is sent as its absolute value.  An object makes the
    call throw before anything is handed to the HTTP library: the error
    ['block count must be a number'] when it converts to
    ["[object Object]"], and the TypeError of the conversion when it has a
    [toString] of its own, which is no function. *)
Theorem rawBlocks_block_count blockHashes n o (w : World) :
  isArray blockHashes = true →
  sent (snd (rawBlocks env this blockHashes (VNumber n) w))
  = sent w
    ++ [options this POST "getblocks"
          (Some (VObject (if (n =? 0)%Z
                          then [("block_ids", blockHashes)]
                          else [("block_ids", blockHashes);
                                ("blockCount", VNumber (Z.abs n))]))) w]
  ∧ sent (snd (rawBlocks env this blockHashes VUndefined w))
    = sent w
      ++ [options this POST "getblocks"
            (Some (VObject [("block_ids", blockHashes)])) w]
  ∧ rawBlocks env this blockHashes (VObject o) w
    = (Throws match own "toString" o with
              | None => Error (VString "block count must be a number")
              | Some _ => TypeError
              end, w).
Proof.
  intros Ha. unfold rawBlocks. rewrite Ha. cbn [negb truthy toNumber].
  split; [|split].
  - destruct (n =? 0)%Z;
      cbn [negb abs VNum assign String.eqb Ascii.eqb Bool.eqb];
      by rewrite snd_then_, _rawPost_sends.
  - by rewrite snd_then_, _rawPost_sends.
  - by destruct (own "toString" o).
Qed.

(** X13.  [walletSyncData] called without options asks for everything from
    the start: its one request carries a start height and a start timestamp
    of 0, no checkpoints, and [skipCoinbaseTransactions] switched off. *)
Theorem walletSyncData_without_options (w : World) :
  ∃ r,
    sent (snd (walletSyncData env this None w)) = sent w ++ [r]
    ∧ method r = POST
    ∧ body r = Some (VObject [("startHeight", VNumber 0);
                              ("startTimestamp", VNumber 0);
                              ("blockHashCheckpoints", VArray []);
                              ("skipCoinbaseTransactions", VBool false)]).
Proof.
  change (walletSyncData env this None w)
    with (walletSyncData env this (Some (fst (newObject w))) (snd (newObject w))).
  destruct (walletSyncData_defaults env this (fst (newObject w)) []
              (snd (newObject w)) (lookup_insert_eq _ _ _))
    as (o' & r & _ & Hs & H1 & H2 & H3 & H4 & _ & Hb).
  cbn [newObject snd sent] in Hs. unfold field in Hb.
  rewrite H1, H2, H3, H4 in Hb by reflexivity. cbn [default] in Hb.
  exists r. split; [exact Hs|]. split; [|exact Hb].
  pose proof (not_sent_and_thrown env this (Call_walletSyncData None) w r Hs)
    as Hd.
  destruct (Delivered_last env this w _ r Hd Hs)
    as (verb & path & payload & w1 & -> & _ & _ & Hv & _).
  destruct verb; [|reflexivity]. subst payload. discriminate Hb.
Qed.

End Bodies.


Lemma rawBlocks_block_count_witness :
  isArray (VArray [sampleHash]) = true
  ∧ sent (snd (rawBlocks (answering VNull) client (VArray [sampleHash])
                 (VNumber (-5)) started))
    = sent started
      ++ [options client POST "getblocks"
            (Some (VObject [("block_ids", VArray [sampleHash]);
                            ("blockCount", VNumber 5)])) started].
Proof.
  split; [reflexivity|].
  exact (proj1 (rawBlocks_block_count (answering VNull) client
                  (VArray [sampleHash]) (-5) [] started eq_refl)).
Defined.

(** ** A client made with no options *)

Lemma config_fields (this : loc) (w : World) a b c d e f :
  config this w = [a; b; c; d; e; f] →
  load this "host" w = a ∧ load this "port" w = b ∧ load this "timeout" w = c
  ∧ load this "ssl" w = d ∧ load this "userAgent" w = e
  ∧ load this "keepAlive" w = f.
Proof. unfold config, configNames; cbn [map]. intros H. by simplify_eq. Qed.

(** X14.  A client made with no options, or with options that set none of
    the six, talks plain http to 127.0.0.1:12898 in every call, with a
    timeout of 2000, the connection kept alive and the name and version of
    the package as its user agent. *)
Theorem default_client_requests env opts c (w : World) r :
  Forall (fun k => prop opts k = VUndefined) configNames →
  sent (snd (invoke env (fst (constructor env opts w)) c
               (snd (constructor env opts w))))
  = sent w ++ [r] →
  (∃ path, uri r = ("http", VString "127.0.0.1", VNumber 12898, path))
  ∧ timeout r = VNumber 2000
  ∧ forever r = VBool true
  ∧ headers r
    = [("User-Agent",
        VString (fst (packageInfo env) +:+ "/" +:+ snd (packageInfo env)))].
Proof.
  intros Ho Hr.
  pose proof (constructor_config env opts w) as Hc.
  set (this := fst (constructor env opts w)) in *.
  set (w' := snd (constructor env opts w)) in *.
  assert (sent w' = sent w) as Hs.
  { unfold w', constructor. by cbn [newObject sent store]. }
  rewrite <- Hs in Hr.
  pose proof (not_sent_and_thrown env this c w' r Hr) as Hd.
  destruct (Delivered_last env this w' _ r Hd Hr)
    as (verb & path & payload & w1 & -> & Hc1 & _ & _ & _).
  apply config_loads in Hc1 as (Hh & Hpo & Ht & Hssl & Hu & Hk).
  apply config_fields in Hc as (Hh' & Hpo' & Ht' & Hssl' & Hu' & Hk').
  unfold configNames in Ho.
  repeat match goal with
         | H : Forall _ (_ :: _) |- _ => apply Forall_cons in H as [? H]
         end.
  cbn [options uri timeout forever headers].
  rewrite Hh, Hpo, Ht, Hssl, Hu, Hk, Hh', Hpo', Ht', Hssl', Hu', Hk'.
  repeat match goal with H : prop opts _ = VUndefined |- _ => rewrite H; clear H end.
  cbn [or_else truthy isUndefined]. eauto 10.
Qed.

Lemma default_client_requests_witness :
  sent (snd (invoke (answering VNull)
               (fst (constructor (answering VNull) VUndefined nowhere)) Call_fee
               (snd (constructor (answering VNull) VUndefined nowhere))))
  = sent nowhere ++ [feeRequest]
  ∧ timeout feeRequest = VNumber 2000.
Proof.
  split; [reflexivity|].
  exact (proj1 (proj2 (default_client_requests (answering VNull) VUndefined
                         Call_fee nowhere feeRequest
                         ltac:(repeat constructor) eq_refl))).
Defined.

(** ** What the options methods send *)

Section Sent.

Context (env : Platform) (this : loc).


End Sent.


(** ** What the reshaping callbacks accept *)

Section Shapes.

Context (env : Platform) (this : loc).

(** X16.  What [poolChanges] makes of a parsed reply: when the reply is an
    object whose [addedTxs] is an array with no [null] entry, the call
    resolves with the reply itself, [addedTxs] replaced in its place by the
    [{hash, prefix}] records of the entries, every other member as it came;
    a reply of any other shape (no [addedTxs], one that is no array, a
    [null] entry, a reply that is no object) rejects with a TypeError. *)
Theorem poolChanges_reply_shape tailBlockHash knownTransactionHashes
    (w : World) response :
  isUndefined tailBlockHash = false →
  isArray knownTransactionHashes = true →
  daemon env
    (options this POST "get_pool_changes_lite"
       (Some (VObject [("tailBlockId", tailBlockHash);
                       ("knownTxsIds", knownTransactionHashes)])) w)
  = Parsed response →
  fst (poolChanges env this tailBlockHash knownTransactionHashes w)
  = match response with
    | VObject o =>
        match field "addedTxs" o with
        | VArray added =>
            if forallb hasMembers added
            then Resolves
                   (VObject (assign "addedTxs" (VArray (map pairOf added)) o))
            else Rejects TypeError
        | _ => Rejects TypeError
        end
    | _ => Rejects TypeError
    end.
Proof.
  intros Ht Ha Hd. unfold poolChanges. rewrite Ht, Ha. cbn [negb].
  unfold then_. rewrite _rawPost_sends by done. unfold request. rewrite Hd.
  cbn [fst]. unfold poolChanges_then.
  destruct response as [| | | | | |o| |]; try done.
  cbn -[each assign field].
  destruct (field "addedTxs" o) as [| | | | |added| | |]; try done.
  change (forEach (VArray added) pushTransaction [])
    with (each pushTransaction added []).
  rewrite each_pushTransaction. by destruct (forallb hasMembers added).
Qed.

End Shapes.

Lemma poolChanges_reply_shape_witness :
  daemon (answering poolResponse)
    (options client POST "get_pool_changes_lite"
       (Some (VObject [("tailBlockId", sampleHash);
                       ("knownTxsIds", VArray [])])) started)
  = Parsed poolResponse
  ∧ fst (poolChanges (answering poolResponse) client sampleHash (VArray [])
           started)
    = Resolves poolNormalized.
Proof.
  split; [reflexivity|].
  exact (poolChanges_reply_shape (answering poolResponse) client sampleHash
           (VArray []) started poolResponse eq_refl eq_refl eq_refl).
Defined.

Lemma assign_same k v (o : Obj) : own k o = Some v → assign k v o = o.
Proof.
  induction o as [|[k' v'] o IH]; cbn [own assign]; [done|].
  destruct (String.eqb_spec k' k) as [->|Hne]; cbn.
  - intros H. by simplify_eq.
  - intros H. f_equal. by apply IH.
Qed.

Lemma field_own k (o : Obj) v : field k o = v → v ≠ VUndefined → own k o = Some v.
Proof. unfold field. destruct (own k o); cbn; congruence. Qed.

Section Items.

Context (env : Platform) (this : loc).

(** X17.  [blocksLite] looks at nothing in the reply but [items].  A reply
    in which [items] is no array (a reply that only reports a failed status,
    for one) rejects with a TypeError; a reply with an empty [items] resolves
    with the reply as it came, whatever its other members say. *)
Theorem blocksLite_needs_an_items_array (l : loc) (o : Obj) (w : World) r
    response :
  heap w !! l = Some o →
  isArray (field "blockHashes" o) = true →
  sent (snd (blocksLite env this (Some l) w)) = sent w ++ [r] →
  daemon env r = Parsed response →
  (isArray (prop response "items") = false →
   fst (blocksLite env this (Some l) w) = Rejects TypeError)
  ∧ (prop response "items" = VArray [] →
     fst (blocksLite env this (Some l) w) = Resolves response).
Proof.
  intros Hl Ha. unfold blocksLite. cbn [orNewObject].
  rewrite (load_Some _ _ _ _ Hl), Ha. cbn [negb]. cbn zeta.
  remember (if isUndefined (load l "timestamp" w) then _ else w) as w1 eqn:E1.
  assert (sent w1 = sent w) as Hs by (by rewrite E1, default_sent).
  rewrite snd_then_, _rawPost_sends, request_world by done. cbn [sent].
  rewrite Hs. intros Hr Hd. apply app_inj_tail in Hr as [_ Hr].
  unfold then_. rewrite _rawPost_sends by done. unfold request.
  rewrite Hr, Hd. cbn [fst]. unfold blocksLite_then.
  split.
  - intros Hi. destruct response as [| | | | | |o'| |]; try done.
    cbn -[each assign field] in *.
    by destruct (field "items" o').
  - intros Hi. destruct response as [| | | | | |o'| |]; try done.
    cbn -[each assign field] in *. rewrite Hi. cbn -[assign].
    rewrite assign_same; [done|]. by apply field_own.
Qed.

End Items.

Lemma blocksLite_needs_an_items_array_witness :
  sent (snd (blocksLite (answering statuslessIndexes) client (Some callerOpts)
               (withOpts hashesOnly)))
  = sent (withOpts hashesOnly)
    ++ [options client POST "queryblockslite"
          (Some (VObject [("blockIds", VArray [sampleHash]);
                          ("timestamp", VNumber 0)])) (withOpts hashesOnly)]
  ∧ fst (blocksLite (answering statuslessIndexes) client (Some callerOpts)
           (withOpts hashesOnly))
    = Rejects TypeError.
Proof.
  split; [reflexivity|].
  exact (proj1 (blocksLite_needs_an_items_array (answering statuslessIndexes)
                  client callerOpts hashesOnly (withOpts hashesOnly) _
                  statuslessIndexes eq_refl eq_refl eq_refl eq_refl) eq_refl).
Defined.

(** ** The JSON-RPC endpoint *)

Section Endpoint.

Context (env : Platform) (this : loc).

(** X18.  The ten methods that go through [_post] send their request to
    [json_rpc], and what they send is a JSON-RPC 2.0 envelope: the version,
    a method name that is not empty, and parameters that are never left out
    (a method without arguments sends an empty object).  No other method
    posts to [json_rpc]. *)
Theorem envelopes_go_to_json_rpc c (w : World) r :
  sent (snd (invoke env this c w)) = sent w ++ [r] →
  if viaJsonRpc c
  then method r = POST
       ∧ endpointOf r = "json_rpc"
       ∧ ∃ name params,
           name ≠ "" ∧ truthy params = true
           ∧ body r = Some (VObject [("jsonrpc", VString "2.0");
                                     ("method", VString name);
                                     ("params", params)])
  else endpointOf r ≠ "json_rpc".
Proof.
  intros Hr. destruct c; cbn [invoke viaJsonRpc] in *;
    unfold block, blockCount, blockHeaderByHash, blockHeaderByHeight,
      blockShortHeaders, blocksDetailed, blocksLite, blockTemplate, fee,
      globalIndexes, globalIndexesForRange, height, info, lastBlockHeader,
      peers, poolChanges, randomOutputs, rawBlocks, sendRawTransaction,
      submitBlock, transaction, transactionPool, transactionsStatus,
      walletSyncData in Hr;
    try (pose proof (orNewObject_sent opts w) as Hs;
         destruct (orNewObject opts w) as [l w0]; cbn [snd] in Hs);
    cbn zeta in Hr; repeat case_match; rewrite ?snd_then_ in Hr;
    try (by destruct (sent_throw_inv _ _ _ _ eq_refl Hr));
    try (by destruct (sent_same_inv _ _ _ eq_refl Hr));
    try (by destruct (sent_throw_inv _ _ _ _ Hs Hr)).
  all: try (apply sent_post_inv in Hr as [-> Hn]; [|reflexivity];
            cbn [options method endpointOf uri snd body or_else truthy];
            split; [reflexivity|]; split; [reflexivity|];
            eexists _, _; split; [exact Hn|]; split; [|reflexivity];
            reflexivity).
  all: try (apply sent_get_inv in Hr as ->; [|reflexivity]; discriminate).
  all: try (apply sent_rawPost_inv in Hr as ->; [|first [reflexivity | exact Hs]];
            discriminate).
Qed.

End Endpoint.

Lemma envelopes_go_to_json_rpc_witness :
  sent (snd (invoke (answering VNull) client Call_blockCount started))
  = sent started ++ [countRequest]
  ∧ method countRequest = POST
  ∧ endpointOf countRequest = "json_rpc"
  ∧ ∃ name params,
      name ≠ "" ∧ truthy params = true
      ∧ body countRequest = Some (VObject [("jsonrpc", VString "2.0");
                                           ("method", VString name);
                                           ("params", params)]).
Proof.
  split; [reflexivity|].
  exact (envelopes_go_to_json_rpc (answering VNull) client Call_blockCount
           started countRequest eq_refl).
Defined.

Section RpcErrors.

Context (env : Platform) (this : loc).



End RpcErrors.


(** ** Numbers that are no bytes *)

Section Wrapping.

Context (env : Platform) (this : loc).

(** X20.  The numbers of a block need not be bytes.  [blocksLite] takes
    each integer of [blockShortInfo.block] modulo 256, so that 256 becomes
    the byte 0 and -1 the byte 255: the [block] of the record it resolves
    with has two hexadecimal digits per entry and reads back as the entries
    modulo 256, in their order. *)
Theorem block_numbers_wrap_to_bytes opts (w : World) r o items :
  sent (snd (blocksLite env this opts w)) = sent w ++ [r] →
  daemon env r = Parsed (VObject o) →
  field "items" o = VArray items →
  forallb reshapable items = true →
  ∃ outs,
    fst (blocksLite env this opts w)
    = Resolves (VObject (assign "items" (VArray outs) o))
    ∧ ∀ i item ns,
        items !! i = Some item →
        prop item "blockShortInfo.block" = VArray (map VNumber ns) →
        ∃ y s,
          outs !! i = Some y
          ∧ prop y "block" = VString s
          ∧ s = toString_hex (map (fun n => n mod 256)%Z ns)
          ∧ fromHex s = Some (map (fun n => n mod 256)%Z ns)
          ∧ String.length s = 2 * length ns.
Proof.
  intros Hr Hd Hi Hall. exists (map reshaped items).
  split; [by apply (blocksLite_reshaped env this _ _ r)|].
  intros i item ns Hitem Hblock.
  exists (reshaped item), (toString_hex (map (fun n => n mod 256)%Z ns)).
  split; [by apply map_lookup_Some|].
  split; [unfold reshaped; rewrite Hblock, bytesOf_integers; reflexivity|].
  split; [reflexivity|]. split; [apply fromHex_toString_hex, Forall_byte|].
  by rewrite length_toString_hex, length_map.
Qed.

End Wrapping.

Lemma block_numbers_wrap_to_bytes_witness :
  sent (snd (blocksLite (answering wrappedResponse) client (Some callerOpts)
               (withOpts hashesOnly)))
  = sent (withOpts hashesOnly) ++ [liteRequest]
  ∧ daemon (answering wrappedResponse) liteRequest = Parsed wrappedResponse
  ∧ prop wrappedResponse "items" = VArray [wrappedItem]
  ∧ forallb reshapable [wrappedItem] = true
  ∧ prop wrappedItem "blockShortInfo.block"
    = VArray (map VNumber [256; -1; 16]%Z)
  ∧ ∃ outs y,
      fst (blocksLite (answering wrappedResponse) client (Some callerOpts)
             (withOpts hashesOnly))
      = Resolves (VObject (assign "items" (VArray outs)
                             [("items", VArray [wrappedItem])]))
      ∧ outs !! 0 = Some y
      ∧ prop y "block" = VString "00ff10".
Proof.
  repeat (split; [reflexivity|]).
  destruct (block_numbers_wrap_to_bytes (answering wrappedResponse) client
              (Some callerOpts) (withOpts hashesOnly) liteRequest
              [("items", VArray [wrappedItem])] [wrappedItem]
              eq_refl eq_refl eq_refl eq_refl)
    as (outs & Hres & Hblocks).
  destruct (Hblocks 0 wrappedItem [256; -1; 16]%Z eq_refl eq_refl)
    as (y & s & Hy & Hs & -> & _).
  exists outs, y. split; [exact Hres|]. split; [exact Hy|]. exact Hs.
Defined.

(** ** A resolved status-checked call had an ok status *)

Lemma eqb_ok s : negb (String.eqb s "ok") = false → s = "ok".
Proof. destruct (String.eqb_spec s "ok"); [done | discriminate]. Qed.

Lemma globalIndexes_then_resolved response out :
  globalIndexes_then response = Normal out →
  ∃ s, prop response "status" = VString s ∧ toLowerCase s = "ok".
Proof.
  unfold globalIndexes_then. intros H.
  apply bind_Normal in H as (status & Hs & H). apply getProp_Normal in Hs as ->.
  apply bind_Normal in H as (lowered & Hl & H).
  destruct (prop response "status") as [| | | |s| | | |]; try discriminate Hl.
  injection Hl as <-. exists s. split; [done|].
  destruct (negb _) eqn:E; [discriminate H | by apply eqb_ok].
Qed.

Lemma globalIndexesForRange_then_resolved response out :
  globalIndexesForRange_then response = Normal out →
  ∃ s, prop response "status" = VString s ∧ toLowerCase s = "ok".
Proof.
  unfold globalIndexesForRange_then. intros H.
  apply bind_Normal in H as (status & Hs & H). apply getProp_Normal in Hs as ->.
  apply bind_Normal in H as (indexes & _ & H).
  destruct (_ || _); [discriminate H|].
  apply bind_Normal in H as (lowered & Hl & H).
  destruct (prop response "status") as [| | | |s| | | |]; try discriminate Hl.
  injection Hl as <-. exists s. split; [done|].
  destruct (negb _) eqn:E; [discriminate H | by apply eqb_ok].
Qed.

Lemma transactionsStatus_then_resolved response out :
  transactionsStatus_then response = Normal out →
  ∃ s, prop response "status" = VString s ∧ toLowerCase s = "ok".
Proof.
  unfold transactionsStatus_then. intros H.
  apply bind_Normal in H as (status & Hs & H). apply getProp_Normal in Hs as ->.
  apply bind_Normal in H as (? & _ & H).
  apply bind_Normal in H as (? & _ & H).
  apply bind_Normal in H as (? & _ & H).
  destruct (_ || _); [discriminate H|].
  apply bind_Normal in H as (lowered & Hl & H).
  destruct (prop response "status") as [| | | |s| | | |]; try discriminate Hl.
  injection Hl as <-. exists s. split; [done|].
  destruct (negb _) eqn:E; [discriminate H | by apply eqb_ok].
Qed.

Lemma walletSyncData_then_resolved response out :
  walletSyncData_then response = Normal out →
  ∃ s, prop response "status" = VString s ∧ toLowerCase s = "ok".
Proof.
  unfold walletSyncData_then. intros H.
  apply bind_Normal in H as (status & Hs & H). apply getProp_Normal in Hs as ->.
  apply bind_Normal in H as (? & _ & H).
  destruct (_ || _); [discriminate H|].
  apply bind_Normal in H as (lowered & Hl & H).
  destruct (prop response "status") as [| | | |s| | | |]; try discriminate Hl.
  injection Hl as <-. exists s. split; [done|].
  destruct (negb _) eqn:E; [discriminate H | by apply eqb_ok].
Qed.

Section StatusOk.

Context (env : Platform) (this : loc).

(** X21.  [globalIndexes], [globalIndexesForRange], [transactionsStatus] and
    [walletSyncData] never resolve on a reply that does not say it went
    well: when one of them resolves, the reply to its request had a [status]
    that is a string and reads ok once put in lower case. *)
Theorem resolved_means_status_ok c (w : World) r out :
  statusChecked c = true →
  sent (snd (invoke env this c w)) = sent w ++ [r] →
  fst (invoke env this c w) = Resolves out →
  ∃ response s,
    daemon env r = Parsed response
    ∧ prop response "status" = VString s
    ∧ toLowerCase s = "ok".
Proof.
  intros Hc Hr Hres.
  destruct c; try discriminate Hc; cbn [invoke] in *;
    unfold globalIndexes, globalIndexesForRange, transactionsStatus,
      walletSyncData in *;
    try (pose proof (orNewObject_sent opts w) as Hs;
         destruct (orNewObject opts w) as [l w0]; cbn [snd] in Hs);
    cbn zeta in *; repeat case_match; try discriminate Hres.
  all: eapply (then_rawPost_resolved env this _ _ _ _ w) in Hres
         as (response & Hd & Hf);
         [|first [reflexivity | exact Hs]|exact Hr].
  all: lazymatch type of Hf with
       | globalIndexes_then _ = _ =>
           apply globalIndexes_then_resolved in Hf as (s & ? & ?)
       | globalIndexesForRange_then _ = _ =>
           apply globalIndexesForRange_then_resolved in Hf as (s & ? & ?)
       | transactionsStatus_then _ = _ =>
           apply transactionsStatus_then_resolved in Hf as (s & ? & ?)
       | walletSyncData_then _ = _ =>
           apply walletSyncData_then_resolved in Hf as (s & ? & ?)
       end; by exists response, s.
Qed.

End StatusOk.

Lemma resolved_means_status_ok_witness :
  sent (snd (invoke (answering okIndexes) client (Call_globalIndexes sampleHash)
               started))
  = sent started
    ++ [options client POST "get_o_indexes"
          (Some (VObject [("txid", sampleHash)])) started]
  ∧ fst (invoke (answering okIndexes) client (Call_globalIndexes sampleHash)
           started)
    = Resolves (VArray [VNumber 1; VNumber 2; VNumber 3])
  ∧ ∃ response s,
      daemon (answering okIndexes)
        (options client POST "get_o_indexes"
           (Some (VObject [("txid", sampleHash)])) started)
      = Parsed response
      ∧ prop response "status" = VString s
      ∧ toLowerCase s = "ok".
Proof.
  split; [reflexivity|]. split; [reflexivity|].
  exact (resolved_means_status_ok (answering okIndexes) client
           (Call_globalIndexes sampleHash) started _ _ eq_refl eq_refl eq_refl).
Defined.

Section AnyReply.

Context (env : Platform) (this : loc).

(** X22.  [rawBlocks] takes whatever the daemon answers: every parsed reply
    but [null] resolves, with exactly the four members [blocks],
    [current_height], [start_height] and [status], each [undefined] when the
    reply has no such [response.*] member; the status is handed on, not
    checked. *)
Theorem rawBlocks_accepts_any_reply blockHashes blockCount (w : World) r
    response :
  sent (snd (rawBlocks env this blockHashes blockCount w)) = sent w ++ [r] →
  daemon env r = Parsed response →
  fst (rawBlocks env this blockHashes blockCount w)
  = if hasMembers response
    then Resolves
           (VObject
              [("blocks", prop response "response.blocks");
               ("current_height", prop response "response.current_height");
               ("start_height", prop response "response.start_height");
               ("status", prop response "response.status")])
    else Rejects TypeError.
Proof.
  unfold rawBlocks. intros Hr Hd.
  repeat case_match;
    try (by destruct (sent_throw_inv _ _ _ _ eq_refl Hr));
    try (by destruct (sent_same_inv _ _ _ eq_refl Hr));
    rewrite (then_rawPost_parsed env this _ _ _ w w r response eq_refl Hr Hd);
    by destruct response.
Qed.

End AnyReply.

Lemma rawBlocks_accepts_any_reply_witness :
  sent (snd (rawBlocks (answering failedEnvelope) client (VArray [sampleHash])
               VUndefined started))
  = sent started
    ++ [options client POST "getblocks"
          (Some (VObject [("block_ids", VArray [sampleHash])])) started]
  ∧ fst (rawBlocks (answering failedEnvelope) client (VArray [sampleHash])
           VUndefined started)
    = Resolves (VObject [("blocks", VUndefined);
                         ("current_height", VUndefined);
                         ("start_height", VUndefined);
                         ("status", VUndefined)]).
Proof.
  split; [reflexivity|].
  exact (rawBlocks_accepts_any_reply (answering failedEnvelope) client
           (VArray [sampleHash]) VUndefined started _ failedEnvelope eq_refl
           eq_refl).
Defined.
